(** * Reward reconciliation and eligibility filtering of the token airdrop

    A shallow embedding of the decision logic of three scripts:
    - [s2-airdrop/miner-checker/filter_and_update_rewards.py]
      (module [FilterAndUpdateRewards]),
    - [s2-airdrop/unique-addresses-collector/collect_unique_addresses.py]
      (module [CollectUniqueAddresses]),
    - [filter_csv.py] (module [FilterCsv]).

    Files are taken in their parsed form: a CSV file read by [csv.DictReader]
    is the list of the dictionaries it yields, a JSON file is the list of the
    objects [json.load] returns, a [pandas.DataFrame] is its table of cells.
    Python exceptions are values of [exn]; a computation that may raise has
    type [result A]. *)

From Stdlib Require Import ZArith Ascii String List Bool Lia DecimalString.
From Stdlib Require Import Floats.SpecFloat.
From stdpp Require Import base decidable option list strings gmap fin_maps.
Import ListNotations.

(** ** Exceptions and fallible computations *)

Inductive exn :=
  | KeyError (key : string)
  | ValueError
  | TypeError
  | AttributeError
  | OverflowError.

Inductive result (A : Type) :=
  | Ok (a : A)
  | Raise (e : exn).
Arguments Ok {A} a.
Arguments Raise {A} e.

Definition bind {A B} (r : result A) (k : A -> result B) : result B :=
  match r with
  | Ok a => k a
  | Raise e => Raise e
  end.

Notation "'let!' x ':=' r 'in' k" := (bind r (fun x => k))
  (at level 10, x name, r at level 100, k at level 200).

(** [for x in xs: st = body x st], stopping at the first exception. *)
Fixpoint for_each {A S} (body : A -> S -> result S) (xs : list A) (st : S)
  : result S :=
  match xs with
  | [] => Ok st
  | x :: xs' => let! st' := body x st in for_each body xs' st'
  end.

(** [[f x for x in xs]], stopping at the first exception. *)
Fixpoint map_result {A B} (f : A -> result B) (xs : list A) : result (list B) :=
  match xs with
  | [] => Ok []
  | x :: xs' =>
      let! y := f x in let! ys := map_result f xs' in Ok (y :: ys)
  end.

(** [[x for x in xs if p x]], stopping at the first exception. *)
Fixpoint filter_result {A} (p : A -> result bool) (xs : list A)
  : result (list A) :=
  match xs with
  | [] => Ok []
  | x :: xs' =>
      let! b := p x in let! ys := filter_result p xs' in
      Ok (if b then x :: ys else ys)
  end.

(** ** Strings

    A Python [str] is modelled by [string]: one [ascii] per code point, so
    the code points are those below 256. *)

Definition in_range (lo hi c : ascii) : bool :=
  (N_of_ascii lo <=? N_of_ascii c)%N && (N_of_ascii c <=? N_of_ascii hi)%N.

(** [str.lower] on one code point: the ASCII capitals and the Latin-1
    capitals (all of U+00C0..U+00DE but the multiplication sign U+00D7). *)
Definition lower_char (c : ascii) : ascii :=
  let n := N_of_ascii c in
  if ((65 <=? n) && (n <=? 90))%N
     || ((192 <=? n) && (n <=? 222) && negb (n =? 215))%N
  then ascii_of_N (n + 32)
  else c.

Fixpoint lower (s : string) : string :=
  match s with
  | EmptyString => EmptyString
  | String c s' => String (lower_char c) (lower s')
  end.

Definition newline : ascii := ascii_of_N 10.

(** ** Regular expressions, as far as [ETH_ADDRESS_PATTERN] uses them

    The pattern language has the anchors, single characters, character sets
    and counted repetition of a character or set. No item offers a choice, so
    matching at a position is a function. *)

Module Re.

Inductive atom :=
  | Lit (c : ascii)
  | Set_ (ranges : list (ascii * ascii)).

Inductive item :=
  | Bol                          (* ^ *)
  | Eol                          (* $ *)
  | One (a : atom)
  | Times (a : atom) (n : nat).  (* a{n} *)

Definition atom_matches (a : atom) (c : ascii) : bool :=
  match a with
  | Lit c' => if decide (c = c') then true else false
  | Set_ ranges => existsb (fun r => in_range (fst r) (snd r) c) ranges
  end.

(** Consume exactly [n] characters matching [a]. *)
Fixpoint consume (a : atom) (n : nat) (s : string) : option string :=
  match n with
  | O => Some s
  | S n' =>
      match s with
      | String c s' => if atom_matches a c then consume a n' s' else None
      | EmptyString => None
      end
  end.

(** Without [re.MULTILINE], [$] matches at the end of the string and just
    before a newline that is the last character of the string. *)
Definition at_eol (s : string) : bool :=
  match s with
  | EmptyString => true
  | String c EmptyString => if decide (c = newline) then true else false
  | _ => false
  end.

(** [matches_at items at_start s]: the items match a prefix of [s];
    [at_start] tells whether [s] starts at position 0 of the subject. *)
Fixpoint matches_at (items : list item) (at_start : bool) (s : string)
  : bool :=
  match items with
  | [] => true
  | Bol :: rest => at_start && matches_at rest at_start s
  | Eol :: rest => at_eol s && matches_at rest at_start s
  | One a :: rest =>
      match consume a 1 s with
      | Some s' => matches_at rest false s'
      | None => false
      end
  | Times a n :: rest =>
      match consume a n s with
      | Some s' =>
          matches_at rest (at_start && (if n is O then true else false)) s'
      | None => false
      end
  end.

(** [bool(pattern.match(s))]: a match anchored at position 0. *)
Definition match_ (items : list item) (s : string) : bool :=
  matches_at items true s.

End Re.

(** ** Floats

    A Python [float] is an IEEE 754 binary64 number: [spec_float] with
    precision 53 and maximal exponent 1024. *)

Abbreviation float := spec_float.

Definition fadd : float -> float -> float := SFadd 53 1024.

(** [x >= y] on floats; false as soon as one side is a NaN. *)
Definition fge (x y : float) : bool := SFleb y x.

Definition is_nan (x : float) : bool :=
  match x with
  | S754_nan => true
  | _ => false
  end.

Definition is_zero (x : float) : bool :=
  match x with
  | S754_zero _ => true
  | _ => false
  end.

Definition float_zero : float := S754_zero false.
Definition float_one : float := S754_finite false 4503599627370496 (-52).

(** [float(n)] for an [int]: the nearest binary64 number, ties to even;
    [OverflowError] when that is beyond the largest finite one. *)
Definition float_of_int (z : Z) : result float :=
  match binary_normalize 53 1024 z 0 false with
  | S754_infinity _ => Raise OverflowError
  | f => Ok f
  end.

(** ** The Python runtime

    The conversions between text and floats and the builtin [sum] are those
    of the interpreter that runs the scripts; the development is parametric in
    them. [float_of_str s] is [float(s)] for a [str], [None] standing for
    [ValueError]; [str_of_float x] is [str(x)]; [py_sum xs] is [sum(xs)] for
    a non-empty sequence of floats. *)

Class PyRuntime := {
  float_of_str : string -> option float;
  str_of_float : float -> string;
  py_sum : list float -> float;
}.

(** ** JSON values, as [json.load] returns them *)

Inductive jvalue :=
  | JNull
  | JBool (b : bool)
  | JInt (z : Z)
  | JFloat (f : float)
  | JStr (s : string)
  | JCompound.   (* a list or a dict: nothing below inspects its content *)

Abbreviation jobject := (gmap string jvalue).

(** ** Dictionaries with [str] values, in insertion order

    [csv.DictReader] yields one per record, keyed by the header line; the
    records have as many fields as the header, so that every value is a
    [str]. *)

Abbreviation dict := (list (string * string)).

Fixpoint dict_lookup (k : string) (d : dict) : option string :=
  match d with
  | [] => None
  | (k', v) :: d' => if decide (k' = k) then Some v else dict_lookup k d'
  end.

(** [d[k]] *)
Definition dict_get (k : string) (d : dict) : result string :=
  match dict_lookup k d with
  | Some v => Ok v
  | None => Raise (KeyError k)
  end.

(** [d.get(k, default)] *)
Definition dict_get_default (k : string) (default : string) (d : dict) : string :=
  match dict_lookup k d with
  | Some v => v
  | None => default
  end.

(** [d[k] = v]: an existing key keeps its place, a new one goes last. *)
Fixpoint dict_set (k v : string) (d : dict) : dict :=
  match d with
  | [] => [(k, v)]
  | (k', v') :: d' =>
      if decide (k' = k) then (k, v) :: d' else (k', v') :: dict_set k v d'
  end.

Definition dict_keys (d : dict) : list string := map fst d.

(** ** filter_and_update_rewards.py *)

Module FilterAndUpdateRewards.

Import Re.

(** [re.compile(r'^0x[a-fA-F0-9]{40}$')] *)
Definition ETH_ADDRESS_PATTERN : list item :=
  [ Bol; One (Lit "0"); One (Lit "x");
    Times (Set_ [("a", "f"); ("A", "F"); ("0", "9")]%char) 40;
    Eol ].

Definition is_valid_ethereum_address (address : string) : bool :=
  match_ ETH_ADDRESS_PATTERN address.

(** The rows are those of [csv.DictReader] over the file. *)
Definition load_unique_addresses (rows : list dict) : result (gset string) :=
  for_each
    (fun row (unique_addresses : gset string) =>
       let! a := dict_get "address" row in
       Ok (unique_addresses ∪ {[ lower a ]}))
    rows ∅.

(** [item['address'].lower()] *)
Definition item_address (item : jobject) : result string :=
  match item !! "address" with
  | None => Raise (KeyError "address")
  | Some (JStr s) => Ok (lower s)
  | Some _ => Raise AttributeError
  end.

(** The items are those of the list [json.load] returns; a later item
    replaces an earlier one of the same address. *)
Definition load_miner_stats (stats : list jobject)
  : result (gmap string jobject) :=
  for_each
    (fun item (stats_dict : gmap string jobject) =>
       let! a := item_address item in
       Ok (<[ a := item ]> stats_dict))
    stats ∅.

Definition ADDRESS : string := "Address".
Definition WAIFU : string := "S2 waifu_reward_tokens".
Definition LLAMA : string := "S2 llama_reward_tokens".
Definition BASE : string := "S2 Total Base Tokens".

(** The variables the loop over the rewards file updates. *)
Record acc := {
  processed_data : list dict;
  total_waifu_rewards : float;
  total_llama_rewards : float;
  total_base_tokens : float;
}.

Definition initial : acc :=
  {| processed_data := [];
     total_waifu_rewards := float_zero;
     total_llama_rewards := float_zero;
     total_base_tokens := float_zero |}.

(** What a run leaves behind: the content of the file at [output_path],
    which [open(output_path, 'w')] creates or empties, as the records
    written to it, each a list of fields; and the lines printed. *)
Record output := {
  written : list (list string);
  printed : list string;
}.

Section Run.
Context {rt : PyRuntime}.

(** [float(s)] for a [str] *)
Definition float_str (s : string) : result float :=
  match float_of_str s with
  | Some f => Ok f
  | None => Raise ValueError
  end.

(** [float(v)] for a JSON value *)
Definition float_json (v : jvalue) : result float :=
  match v with
  | JInt z => float_of_int z
  | JFloat f => Ok f
  | JBool b => Ok (if b then float_one else float_zero)
  | JStr s => float_str s
  | JNull | JCompound => Raise TypeError
  end.

(** [float(row[k])] *)
Definition float_field (k : string) (row : dict) : result float :=
  let! s := dict_get k row in float_str s.

(** [float(stats['revisedTokens']) if 'revisedTokens' in stats
    else float(stats['totalTokens'])] *)
Definition json_total (stats : jobject) : result float :=
  match stats !! "revisedTokens" with
  | Some v => float_json v
  | None =>
      match stats !! "totalTokens" with
      | Some v => float_json v
      | None => Raise (KeyError "totalTokens")
      end
  end.

(** [processed_data.append(r)] followed by the three [+=], [base] being
    the amount added to the base total once the two reward fields of
    [row] have been read. *)
Definition record (r row : dict) (base : result float) (st : acc)
  : result acc :=
  let! w := float_field WAIFU row in
  let! l := float_field LLAMA row in
  let! b := base in
  Ok {| processed_data := processed_data st ++ [r];
        total_waifu_rewards := fadd (total_waifu_rewards st) w;
        total_llama_rewards := fadd (total_llama_rewards st) l;
        total_base_tokens := fadd (total_base_tokens st) b |}.

(** The body of [for row in reader]. *)
Definition loop_body (unique_addresses : gset string)
    (miner_stats : gmap string jobject) (row : dict) (st : acc)
  : result acc :=
  let! a := dict_get ADDRESS row in
  let address := lower a in
  (* Step 1 *)
  if negb (is_valid_ethereum_address address) then Ok st
  (* Step 2 *)
  else if decide (address ∈ unique_addresses) then Ok st
  (* Step 3 *)
  else match miner_stats !! address with
       | Some stats =>
           let! csv_total_tokens := float_field BASE row in
           let! json_total_tokens := json_total stats in
           if fge json_total_tokens csv_total_tokens then
             record row row (Ok csv_total_tokens) st
           else
             let updated_row :=
               dict_set BASE (str_of_float json_total_tokens) row in
             record updated_row row (Ok json_total_tokens) st
       | None =>
           record row row (float_field BASE row) st
       end.

(** Step 4 *)
Definition threshold (processed : list dict) : result (list dict) :=
  filter_result
    (fun row => let! x := float_field BASE row in Ok (fge x float_one))
    processed.

(** [sum(float(row[k]) for row in rows)] *)
Definition sum_field (k : string) (rows : list dict) : result float :=
  let! xs := map_result (float_field k) rows in Ok (py_sum xs).

(** [csv.DictWriter._dict_to_list], with [extrasaction='raise'] and
    [restval=''] *)
Definition dict_to_list (fieldnames : list string) (rowdict : dict)
  : result (list string) :=
  if forallb (fun k => bool_decide (k ∈ fieldnames)) (dict_keys rowdict)
  then Ok (map (fun k => dict_get_default k "" rowdict) fieldnames)
  else Raise ValueError.

(** The [with open(output_path, 'w')] block. *)
Definition write_results (output_path : string) (filtered_data : list dict)
    (waifu llama base : float) : result output :=
  match filtered_data with
  | first :: _ =>
      let fieldnames := dict_keys first in
      let! body := map_result (dict_to_list fieldnames) filtered_data in
      let blank_row := map (fun field => (field, "")) fieldnames in
      let! blank := dict_to_list fieldnames blank_row in
      let total_row :=
        [ (ADDRESS, "TOTAL");
          (WAIFU, str_of_float waifu);
          (LLAMA, str_of_float llama);
          (BASE, str_of_float base) ] in
      let! total := dict_to_list fieldnames total_row in
      Ok {| written := fieldnames :: body ++ [blank; total];
            printed :=
              [ "Processed data written to " +:+ output_path;
                "Total S2 waifu rewards: " +:+ str_of_float waifu;
                "Total S2 llama rewards: " +:+ str_of_float llama;
                "Total S2 base tokens: " +:+ str_of_float base ] |}
  | [] =>
      Ok {| written := []; printed := [ "No data to write." ] |}
  end.

(** The loop over the rewards file, from the initial totals. *)
Definition process_rows (unique_addresses : gset string)
    (miner_stats : gmap string jobject) (rewards : list dict)
  : result acc :=
  for_each (loop_body unique_addresses miner_stats) rewards initial.

(** [filtered_data]: the records that survive steps 1 to 4. *)
Definition filtered_rows (unique_addresses : gset string)
    (miner_stats : gmap string jobject) (rewards : list dict)
  : result (list dict) :=
  let! st := process_rows unique_addresses miner_stats rewards in
  threshold (processed_data st).

(** [rewards], [unique] and [stats] are the parsed contents of the files
    at [input_rewards_path], [unique_addresses_path] and
    [miner_stats_path]. *)
Definition process_miner_rewards (rewards unique : list dict)
    (stats : list jobject) (output_path : string) : result output :=
  let! unique_addresses := load_unique_addresses unique in
  let! miner_stats := load_miner_stats stats in
  let! filtered_data := filtered_rows unique_addresses miner_stats rewards in
  let! total_waifu := sum_field WAIFU filtered_data in
  let! total_llama := sum_field LLAMA filtered_data in
  let! total_base := sum_field BASE filtered_data in
  write_results output_path filtered_data total_waifu total_llama total_base.

End Run.

End FilterAndUpdateRewards.

(** ** pandas tables

    A [DataFrame] is its column labels and its rows of cells. A missing value
    is the float NaN. Read with [header=None], the labels are the positions
    and [df[0]] is the first column. *)

Inductive cell :=
  | CStr (s : string)
  | CInt (z : Z)
  | CFloat (f : float)
  | CBool (b : bool).

Record DataFrame := {
  columns : list string;
  data : list (list cell);
}.

Definition missing : cell := CFloat S754_nan.

Fixpoint index_of (label : string) (labels : list string) : option nat :=
  match labels with
  | [] => None
  | l :: labels' =>
      if decide (l = label) then Some O
      else match index_of label labels' with
           | Some i => Some (S i)
           | None => None
           end
  end.

(** The cells of the column at position [i]. *)
Definition column_at (i : nat) (df : DataFrame) : list cell :=
  map (fun row => nth i row missing) (data df).

Definition is_str (c : cell) : bool :=
  match c with
  | CStr _ => true
  | _ => false
  end.

(** [col.dtype == 'object'] for a column [read_csv] produced: the column
    holds text. *)
Definition dtype_object (col : list cell) : bool := existsb is_str col.

(** ** collect_unique_addresses.py

    [main] is taken from the tables [pd.read_csv] returns to the set it
    saves; the progress messages are left out. *)

Module CollectUniqueAddresses.

Definition comma : ascii := ","%char.

Fixpoint contains_comma (s : string) : bool :=
  match s with
  | EmptyString => false
  | String c s' => (if decide (c = comma) then true else false) || contains_comma s'
  end.

(** [s.split(',')[0]] *)
Fixpoint first_piece (s : string) : string :=
  match s with
  | EmptyString => EmptyString
  | String c s' =>
      if decide (c = comma) then EmptyString else String c (first_piece s')
  end.

(** [col.str.contains(',').any()] *)
Definition any_contains_comma (col : list cell) : bool :=
  existsb (fun c => match c with CStr s => contains_comma s | _ => false end)
    col.

(** [col.str.split(',', expand=True)[0].tolist()] *)
Definition split_first (col : list cell) : list cell :=
  map (fun c => match c with CStr s => CStr (first_piece s) | _ => missing end)
    col.

(** [[addr.lower() for addr in addresses if isinstance(addr, str)]] *)
Fixpoint lowered (addresses : list cell) : list string :=
  match addresses with
  | [] => []
  | CStr addr :: rest => lower addr :: lowered rest
  | _ :: rest => lowered rest
  end.

(** The addresses one cluster file contributes. *)
Definition sybil_addresses (df : DataFrame) : list cell :=
  let col := column_at 0 df in
  if dtype_object col && any_contains_comma col then split_first col
  else col.

(** The body of [for file_path in sybil_files], [df] being the file read
    with [header=None]. *)
Definition add_sybil_file (unique_addresses : gset string) (df : DataFrame)
  : gset string :=
  if (0 <? length (columns df))%nat
  then unique_addresses ∪ list_to_set (lowered (sybil_addresses df))
  else unique_addresses.

(** The rewards file: absent, unreadable, or read. *)
Inductive rewards_file :=
  | NotFound
  | Unreadable
  | Loaded (rewards_df : DataFrame).

Definition add_rewards_file (unique_addresses : gset string)
    (rewards : rewards_file) : gset string :=
  match rewards with
  | Loaded rewards_df =>
      match index_of "Address" (columns rewards_df) with
      | Some i =>
          unique_addresses ∪ list_to_set (lowered (column_at i rewards_df))
      | None => unique_addresses
      end
  | NotFound | Unreadable => unique_addresses
  end.

(** The set [main] saves, from the cluster files in the order [glob]
    lists them and the rewards file. *)
Definition main (sybil_files : list DataFrame) (rewards : rewards_file)
  : gset string :=
  add_rewards_file (fold_left add_sybil_file sybil_files ∅) rewards.

End CollectUniqueAddresses.

(** ** filter_csv.py

    [filter_airdrop_data] is taken from the table [pd.read_csv] returns to
    the table it saves; the row counts it prints are left out. *)

Module FilterCsv.

(** The truth value [DataFrame.any] gives a cell; it skips missing
    values. *)
Definition cell_truthy (c : cell) : bool :=
  match c with
  | CStr s => if decide (s = EmptyString) then false else true
  | CInt z => negb (z =? 0)%Z
  | CFloat f => negb (is_zero f) && negb (is_nan f)
  | CBool b => b
  end.

(** One row of [df[labels]]; [KeyError] when a label is no column. *)
Definition select (labels : list string) (df : DataFrame) (row : list cell)
  : result (list cell) :=
  map_result
    (fun label =>
       match index_of label (columns df) with
       | Some i => Ok (nth i row missing)
       | None => Raise (KeyError label)
       end)
    labels.

(** [df[labels].any(axis=1)] *)
Definition any_axis1 (labels : list string) (df : DataFrame)
  : result (list bool) :=
  map_result
    (fun row => let! cells := select labels df row in
                Ok (existsb cell_truthy cells))
    (data df).

Definition NOT_TOKENS : list string :=
  [ "Address"; "S1 Llama Points"; "S1 Waifu Points" ].

Definition s1_columns : list string :=
  [ "S1 Total Base Tokens"; "S1 Total Bonus Tokens" ].

(** [df[mask]] *)
Fixpoint mask_rows (rows : list (list cell)) (mask : list bool)
  : list (list cell) :=
  match rows, mask with
  | row :: rows', b :: mask' =>
      if b then row :: mask_rows rows' mask' else mask_rows rows' mask'
  | _, _ => []
  end.

(** The frame [filter_airdrop_data] writes, from the frame it read. *)
Definition filter_airdrop_data (df : DataFrame) : result DataFrame :=
  let token_columns :=
    List.filter (fun col => negb (bool_decide (col ∈ NOT_TOKENS)))
      (columns df) in
  let! filter_condition_1 := any_axis1 token_columns df in
  let! filter_condition_2 := any_axis1 s1_columns df in
  let final_filter := zip_with andb filter_condition_1 filter_condition_2 in
  Ok {| columns := columns df; data := mask_rows (data df) final_filter |}.

End FilterCsv.

(** ** A table saved by pandas and read back by [csv.DictReader] *)

Section ToCsv.
Context {rt : PyRuntime}.






End ToCsv.

(** ** A concrete runtime

    [CPython.runtime] follows CPython on ASCII text: [float] reads an optional
    sign, then [inf], [infinity], [nan] or a decimal numeral with an optional
    exponent, between optional white space, and rounds to the nearest
    binary64 number; [str] writes the shortest decimal numeral that reads back
    as the same number; [sum] adds from the left, starting from zero. The
    worked examples below are evaluated in it. *)

Module CPython.

Definition is_space (c : ascii) : bool :=
  let n := N_of_ascii c in ((9 <=? n) && (n <=? 13) || (n =? 32))%N.

Fixpoint lstrip (s : string) : string :=
  match s with
  | String c s' => if is_space c then lstrip s' else s
  | EmptyString => s
  end.

Fixpoint rev_append (s acc : string) : string :=
  match s with
  | EmptyString => acc
  | String c s' => rev_append s' (String c acc)
  end.

Definition strip (s : string) : string :=
  rev_append (lstrip (rev_append (lstrip s) EmptyString)) EmptyString.

Definition digit_of (c : ascii) : option Z :=
  let n := N_of_ascii c in
  if ((48 <=? n) && (n <=? 57))%N then Some (Z.of_N (n - 48)) else None.

(** The leading digits of [s]: their value appended to [acc], how many
    they are, and the rest of [s]. *)
Fixpoint digits (s : string) (acc : Z) (count : nat) : Z * nat * string :=
  match s with
  | String c s' =>
      match digit_of c with
      | Some d => digits s' (10 * acc + d) (S count)
      | None => (acc, count, s)
      end
  | EmptyString => (acc, count, s)
  end.

(** The binary64 number nearest to [n * 10 ^ e10], for [0 <= n]. *)
Definition of_decimal (neg : bool) (n e10 : Z) : float :=
  if (n =? 0)%Z then S754_zero neg
  else if (0 <=? e10)%Z then
    binary_normalize 53 1024
      (if neg then - (n * 10 ^ e10) else n * 10 ^ e10)%Z 0 neg
  else
    let d := (10 ^ (- e10))%Z in
    let s := Z.max 0 (Zdigits2 d - Zdigits2 n + 64) in
    let '(q, r) := Z.div_eucl (n * 2 ^ s) d in
    binary_round_aux 53 1024 neg q (- s) (new_location d r).

(** An optional exponent [e±ddd] ending the text. *)
Definition exponent (s : string) : option Z :=
  match s with
  | EmptyString => Some 0%Z
  | String c s' =>
      if bool_decide (c = "e"%char) || bool_decide (c = "E"%char) then
        let '(neg, s'') :=
          match s' with
          | String "-" t => (true, t)
          | String "+" t => (false, t)
          | _ => (false, s')
          end in
        match digits s'' 0 0 with
        | (_, O, _) => None
        | (e, _, EmptyString) => Some (if neg then - e else e)%Z
        | _ => None
        end
      else None
  end.

Definition numeral (neg : bool) (s : string) : option float :=
  let '(i, ni, s1) := digits s 0 0 in
  let '(m, nf, s2) :=
    match s1 with
    | String "." t => digits t i 0
    | _ => (i, O, s1)
    end in
  match (ni + nf)%nat with
  | O => None
  | _ =>
      match exponent s2 with
      | Some e => Some (of_decimal neg m (e - Z.of_nat nf))
      | None => None
      end
  end.

Definition parse_float (s : string) : option float :=
  let t := lower (strip s) in
  let '(neg, u) :=
    match t with
    | String "-" u => (true, u)
    | String "+" u => (false, u)
    | _ => (false, t)
    end in
  if bool_decide (u = "inf") || bool_decide (u = "infinity")
  then Some (S754_infinity neg)
  else if bool_decide (u = "nan") then Some S754_nan
  else numeral neg u.

(** [num / den] rounded to the nearest integer, ties to even. *)
Definition round_div (num den : Z) : Z :=
  let '(q, r) := Z.div_eucl num den in
  match (2 * r ?= den)%Z with
  | Lt => q
  | Gt => (q + 1)%Z
  | Eq => if Z.even q then q else (q + 1)%Z
  end.

(** [num / den * 10 ^ t] as a fraction. *)
Definition scaled (num den t : Z) : Z * Z :=
  if (0 <=? t)%Z then (num * 10 ^ t, den)%Z else (num, den * 10 ^ (- t))%Z.

(** The largest [j] from [j0] on, within [fuel] steps, with
    [10 ^ j <= num / den]. *)
Fixpoint log10_from (fuel : nat) (num den j0 : Z) : Z :=
  match fuel with
  | O => j0
  | S fuel' =>
      let '(a, b) := scaled num den (- (j0 + 1)) in
      if (b <=? a)%Z then log10_from fuel' num den (j0 + 1)%Z else j0
  end.

(** The shortest numeral of [p] to [p + fuel] digits that reads back as
    [m * 2 ^ e]: its digits as an integer and the exponent of its first
    digit. *)
Fixpoint shortest (fuel : nat) (p : Z) (m : positive) (e : Z)
    (num den e10 : Z) : Z * Z :=
  let '(a, b) := scaled num den (p - 1 - e10) in
  let d0 := round_div a b in
  let '(d, e10') :=
    if (d0 =? 10 ^ p)%Z then (10 ^ (p - 1), e10 + 1)%Z else (d0, e10) in
  match fuel with
  | O => (d, e10')
  | S fuel' =>
      match of_decimal false d (e10' - (p - 1)) with
      | S754_finite _ m' e' =>
          if bool_decide (m' = m) && bool_decide (e' = e) then (d, e10')
          else shortest fuel' (p + 1) m e num den e10
      | _ => shortest fuel' (p + 1) m e num den e10
      end
  end.

Definition digits_of (d : Z) : string := NilZero.string_of_int (Z.to_int d).

Fixpoint zeros (n : nat) : string :=
  match n with
  | O => EmptyString
  | S n' => String "0" (zeros n')
  end.

Fixpoint take (n : nat) (s : string) : string :=
  match n, s with
  | S n', String c s' => String c (take n' s')
  | _, _ => EmptyString
  end.

Fixpoint drop (n : nat) (s : string) : string :=
  match n, s with
  | S n', String c s' => drop n' s'
  | _, _ => s
  end.

(** The digits [ds] with the decimal point after the first [decpt] of
    them, as [repr] lays them out. *)
Definition layout (ds : string) (decpt : Z) : string :=
  let n := Z.of_nat (String.length ds) in
  if ((-4 <? decpt) && (decpt <=? 16))%Z then
    if (decpt <=? 0)%Z then "0." +:+ zeros (Z.to_nat (- decpt)) +:+ ds
    else if (n <=? decpt)%Z then ds +:+ zeros (Z.to_nat (decpt - n)) +:+ ".0"
    else take (Z.to_nat decpt) ds +:+ "." +:+ drop (Z.to_nat decpt) ds
  else
    let x := (decpt - 1)%Z in
    let xs := digits_of (Z.abs x) in
    take 1 ds
    +:+ (if (1 <? n)%Z then "." +:+ drop 1 ds else EmptyString)
    +:+ (if (x <? 0)%Z then "e-" else "e+")
    +:+ (if (Z.abs x <? 10)%Z then "0" +:+ xs else xs).

Fixpoint strip_zeros (fuel : nat) (d : Z) : Z :=
  match fuel with
  | O => d
  | S fuel' =>
      if ((d mod 10 =? 0) && negb (d =? 0))%Z then strip_zeros fuel' (d / 10)%Z
      else d
  end.

Definition repr_float (x : float) : string :=
  match x with
  | S754_nan => "nan"
  | S754_infinity s => if s then "-inf" else "inf"
  | S754_zero s => if s then "-0.0" else "0.0"
  | S754_finite s m e =>
      let '(num, den) :=
        if (0 <=? e)%Z then (Z.pos m * 2 ^ e, 1)%Z
        else (Z.pos m, 2 ^ (- e))%Z in
      let guess := ((Z.pos (digits2_pos m) + e - 1) * 30103 / 100000 - 1)%Z in
      let e10 := log10_from 3 num den guess in
      let '(d, e10') := shortest 16 1 m e num den e10 in
      (if s then "-" else EmptyString)
      +:+ layout (digits_of (strip_zeros 17 d)) (e10' + 1)
  end.

(** [sum(xs)], adding from the left. Later releases of CPython carry a
    correction term for the rounding errors, which is zero whenever the
    partial sums are exact. *)
Definition sum_left (xs : list float) : float :=
  fold_left fadd xs float_zero.

Definition runtime : PyRuntime :=
  Build_PyRuntime parse_float repr_float sum_left.

End CPython.

(** * Definitions used in the statements *)

(** ** Keys of the order of floats *)

Definition key (x : float) : Z * Z * Z :=
  match x with
  | S754_nan => (0, 0, 0)
  | S754_zero _ => (0, 0, 0)
  | S754_infinity s => (if s then -2 else 2, 0, 0)
  | S754_finite s m e =>
      if s then (-1, - e, - Z.pos m) else (1, e, Z.pos m)
  end%Z.

Definition key_lt (a b : Z * Z * Z) : Prop :=
  let '(c1, e1, m1) := a in
  let '(c2, e2, m2) := b in
  (c1 < c2 \/ (c1 = c2 /\ (e1 < e2 \/ (e1 = e2 /\ m1 < m2))))%Z.

Definition key_le (a b : Z * Z * Z) : Prop :=
  let '(c1, e1, m1) := a in
  let '(c2, e2, m2) := b in
  (c1 < c2 \/ (c1 = c2 /\ (e1 < e2 \/ (e1 = e2 /\ m1 <= m2))))%Z.

(** ** The address format *)

Definition is_hex (c : ascii) : bool :=
  in_range "a" "f" c || in_range "A" "F" c || in_range "0" "9" c.

Fixpoint all_chars (p : ascii -> bool) (s : string) : bool :=
  match s with
  | EmptyString => true
  | String c s' => p c && all_chars p s'
  end.

(** The format as the specification words it: the prefix [0x], then exactly
    40 hexadecimal digits, 42 characters in all. *)
Definition well_formed_address (a : string) : bool :=
  match a with
  | String c0 (String c1 h) =>
      bool_decide (c0 = "0"%char) && bool_decide (c1 = "x"%char)
      && (String.length h =? 40)%nat && all_chars is_hex h
  | _ => false
  end.

Definition nl : string := String newline EmptyString.

(** ** Sample inputs *)

Definition sample_address : string :=
  "0xaaaaaaaaaaaaaaaaaaaaaaaaaaaaaaaaaaaaaaaa".

Definition other_address : string :=
  "0xbbbbbbbbbbbbbbbbbbbbbbbbbbbbbbbbbbbbbbbb".

(** A candidate record of the rewards file. *)
Definition candidate_of (address waifu llama base : string) : dict :=
  [ (FilterAndUpdateRewards.ADDRESS, address);
    (FilterAndUpdateRewards.WAIFU, waifu);
    (FilterAndUpdateRewards.LLAMA, llama);
    (FilterAndUpdateRewards.BASE, base) ].

Definition candidate : string -> string -> string -> dict :=
  candidate_of sample_address.

(** A remote record for [sample_address] with one more field. *)
Definition remote_record (field : string) (v : jvalue) : jobject :=
  {[ "address" := JStr sample_address; field := v ]}.

(** The float a numeral denotes. *)
Definition number (s : string) : float :=
  match CPython.parse_float s with
  | Some x => x
  | None => S754_nan
  end.

(** The state after [processed_data.append(r)] and the three [+=]. *)
Definition appended (r : dict) (w l b : float) (st : FilterAndUpdateRewards.acc)
  : FilterAndUpdateRewards.acc :=
  FilterAndUpdateRewards.Build_acc
    (FilterAndUpdateRewards.processed_data st ++ [r])
    (fadd (FilterAndUpdateRewards.total_waifu_rewards st) w)
    (fadd (FilterAndUpdateRewards.total_llama_rewards st) l)
    (fadd (FilterAndUpdateRewards.total_base_tokens st) b).

(** ** The loop body without the state *)

Definition ok_part {A} (r : result A) : option A :=
  match r with
  | Ok a => Some a
  | Raise _ => None
  end.

Section Steps.
Context {rt : PyRuntime}.
Import FilterAndUpdateRewards.

(** What the loop body decides for a row, apart from the state: [None]
    when Step 1 or 2 skips the row, else the record appended and the three
    amounts added. *)
Definition step (uq : gset string) (ms : gmap string jobject) (row : dict)
  : result (option (dict * float * float * float)) :=
  let! a := dict_get ADDRESS row in
  if negb (is_valid_ethereum_address (lower a)) then Ok None
  else if decide (lower a ∈ uq) then Ok None
  else match ms !! lower a with
       | Some stats =>
           let! csv := float_field BASE row in
           let! json := json_total stats in
           let! w := float_field WAIFU row in
           let! l := float_field LLAMA row in
           Ok (Some (if fge json csv then (row, w, l, csv)
                     else (dict_set BASE (str_of_float json) row, w, l, json)))
       | None =>
           let! w := float_field WAIFU row in
           let! l := float_field LLAMA row in
           let! b := float_field BASE row in
           Ok (Some (row, w, l, b))
       end.

Definition apply_step (o : option (dict * float * float * float)) (st : acc)
  : acc :=
  match o with
  | Some (r, w, l, b) => appended r w l b st
  | None => st
  end.

Definition records (o : option (dict * float * float * float)) : list dict :=
  match o with
  | Some (r, _, _, _) => [r]
  | None => []
  end.

(** The records of one row that survive Steps 1 to 4. *)
Definition survivors (uq : gset string) (ms : gmap string jobject)
    (row : dict) : result (list dict) :=
  let! o := step uq ms row in threshold (records o).

End Steps.

(** ** The layout of the output *)

(** The fields [csv.DictWriter] writes for a dictionary. *)
Definition render (fieldnames : list string) (r : dict) : list string :=
  map (fun k => dict_get_default k "" r) fieldnames.

(** The fields written for the row of totals. *)
Definition total_line {rt : PyRuntime} (fieldnames : list string)
    (waifu llama base : float) : list string :=
  map (fun k =>
         if decide (k = FilterAndUpdateRewards.ADDRESS) then "TOTAL"
         else if decide (k = FilterAndUpdateRewards.WAIFU)
              then str_of_float waifu
         else if decide (k = FilterAndUpdateRewards.LLAMA)
              then str_of_float llama
         else if decide (k = FilterAndUpdateRewards.BASE)
              then str_of_float base
         else "")
      fieldnames.

(** The lines printed after the table has been written. *)
Definition report {rt : PyRuntime} (output_path : string)
    (waifu llama base : float) : list string :=
  [ "Processed data written to " +:+ output_path;
    "Total S2 waifu rewards: " +:+ str_of_float waifu;
    "Total S2 llama rewards: " +:+ str_of_float llama;
    "Total S2 base tokens: " +:+ str_of_float base ].

(** The two synthetic rows the [with] block writes after the records. *)
Definition blank_row (fieldnames : list string) : dict :=
  map (fun field => (field, EmptyString)) fieldnames.

Definition total_row {rt : PyRuntime} (waifu llama base : float) : dict :=
  [ (FilterAndUpdateRewards.ADDRESS, "TOTAL");
    (FilterAndUpdateRewards.WAIFU, str_of_float waifu);
    (FilterAndUpdateRewards.LLAMA, str_of_float llama);
    (FilterAndUpdateRewards.BASE, str_of_float base) ].

(** The rows [csv.DictReader] yields on a file with the one column
    [address] and the given fields, one per line. *)
Definition address_rows (addresses : list string) : list dict :=
  map (fun a => [ ("address", a) ]) addresses.

(** ** Sample tables *)

Section RowsKept.
Import FilterCsv.

(** Whether [filter_airdrop_data] keeps a row. *)
Definition kept (df : DataFrame) (row : list cell) : bool :=
  let token_columns :=
    List.filter (fun col => negb (bool_decide (col ∈ NOT_TOKENS)))
      (columns df) in
  match select token_columns df row, select s1_columns df row with
  | Ok tokens, Ok s1 => existsb cell_truthy tokens && existsb cell_truthy s1
  | _, _ => false
  end.

End RowsKept.

(** A candidate table with the two season totals of [filter_csv.py] and the
    columns of the rewards file: one row per address, given by its two S1
    totals and its S2 base total. *)
Definition season_table (rows : list (string * Z * Z * string)) : DataFrame :=
  {| columns :=
       [ FilterAndUpdateRewards.ADDRESS;
         "S1 Total Base Tokens"; "S1 Total Bonus Tokens";
         FilterAndUpdateRewards.WAIFU; FilterAndUpdateRewards.LLAMA;
         FilterAndUpdateRewards.BASE ];
     data :=
       map (fun '(address, s1_base, s1_bonus, s2_base) =>
              [ CStr address; CInt s1_base; CInt s1_bonus;
                CInt 2; CInt 3; CFloat (number s2_base) ])
         rows |}.

(** Two addresses joined by a comma, the first one in capitals. *)
Definition joined_addresses : string :=
  "0xAAAAAAAAAAAAAAAAAAAAAAAAAAAAAAAAAAAAAAAA,0xbbbbbbbbbbbbbbbbbbbbbbbbbbbbbbbbbbbbbbbb".

(** A cluster file of one line, whose only cell joins two addresses. *)
Definition joined_file : DataFrame :=
  {| columns := [ "0" ]; data := [ [ CStr joined_addresses ] ] |}.

(** A cluster file of one line with one address. *)
Definition other_file : DataFrame :=
  {| columns := [ "0" ]; data := [ [ CStr other_address ] ] |}.

(** A cluster file of one line, read as two columns. *)
Definition two_columns_file : DataFrame :=
  {| columns := [ "0"; "1" ];
     data := [ [ CStr sample_address; CStr other_address ] ] |}.

(** * Properties *)

#[local] Arguments String.append !_ _ / : simpl nomatch.
#[local] Set Warnings "-clear-no-such-hyp".

(** ** The order of floats

    [SFcompare] is the lexicographic order of a key: the class of the number
    (infinities, finite numbers of either sign, zeros), then the exponent,
    then the mantissa, the last two negated for negative numbers. *)

Ltac float_cases x :=
  let s := fresh "s" in
  let m := fresh "m" in
  let e := fresh "e" in
  destruct x as [s | s | | s m e]; try destruct s.

Ltac compare_cases :=
  repeat match goal with
  | |- context [Z.compare ?a ?b] => destruct (Z.compare_spec a b)
  | |- context [Pos.compare_cont Eq ?a ?b] =>
      change (Pos.compare_cont Eq a b) with (Pos.compare a b);
      destruct (Pos.compare_spec a b)
  end.

Lemma SFltb_key (x y : float) :
  is_nan x = false -> is_nan y = false ->
  SFltb x y = true <-> key_lt (key x) (key y).
Proof.
  intros Hx Hy. unfold SFltb, SFcompare.
  float_cases x; float_cases y; try discriminate; cbn [key key_lt];
    compare_cases; cbn [CompOpp]; split; intros; try discriminate;
    try reflexivity; lia.
Qed.

Lemma SFleb_key (x y : float) :
  is_nan x = false -> is_nan y = false ->
  SFleb x y = true <-> key_le (key x) (key y).
Proof.
  intros Hx Hy. unfold SFleb, SFcompare.
  float_cases x; float_cases y; try discriminate; cbn [key key_le];
    compare_cases; cbn [CompOpp]; split; intros; try discriminate;
    try reflexivity; lia.
Qed.

Lemma SFleb_nan_l (y : float) : SFleb S754_nan y = false.
Proof. reflexivity. Qed.

Lemma SFleb_nan_r (x : float) : SFleb x S754_nan = false.
Proof. by destruct x. Qed.

Lemma fge_refl (x : float) : is_nan x = false -> fge x x = true.
Proof.
  intros Hx. unfold fge. apply SFleb_key; [done..|].
  destruct (key x) as [[c e] m]. cbn. lia.
Qed.

(** On numbers, [not (x >= y)] is [x < y]. *)
Lemma fge_false_lt (x y : float) :
  is_nan x = false -> is_nan y = false ->
  fge x y = false -> SFltb x y = true.
Proof.
  intros Hx Hy Hge. apply SFltb_key; [done..|].
  destruct (SFleb y x) eqn:Hle; [by unfold fge in Hge; congruence|].
  assert (~ key_le (key y) (key x)) as Hn.
  { intros Hk. apply SFleb_key in Hk; [congruence|done..]. }
  destruct (key x) as [[c1 e1] m1], (key y) as [[c2 e2] m2].
  cbn in *. lia.
Qed.

Lemma SFltb_le (x y : float) : SFltb x y = true -> SFleb x y = true.
Proof.
  unfold SFltb, SFleb. by destruct (SFcompare x y) as [[]|].
Qed.




(** ** Address validation *)

Section AddressValidation.
Import Re FilterAndUpdateRewards.

Lemma append_empty_r (s : string) : s +:+ EmptyString = s.
Proof. induction s as [|c s IH]; simpl; [done|by rewrite IH]. Qed.

Lemma consume_Some (a : atom) (n : nat) (s s' : string) :
  consume a n s = Some s' <->
  exists h, s = h +:+ s' /\ String.length h = n
            /\ all_chars (atom_matches a) h = true.
Proof.
  revert s. induction n as [|n IH]; intros s; cbn [consume].
  - split.
    + intros [= ->]. by exists EmptyString.
    + intros ([|c h] & -> & Hlen & _); [done|discriminate].
  - destruct s as [|c s]; [|destruct (atom_matches a c) eqn:Hc].
    + split; [done|]. intros ([|c h] & Hs & Hlen & _); discriminate.
    + rewrite IH. split.
      * intros (h & -> & <- & Hall). exists (String c h). cbn.
        by rewrite Hc, Hall.
      * intros ([|c' h] & Hs & Hlen & Hall); [discriminate|].
        cbn in Hs, Hlen, Hall. simplify_eq. exists h.
        apply andb_true_iff in Hall as [_ Hall]. done.
    + split; [done|]. intros ([|c' h] & Hs & Hlen & Hall); [discriminate|].
      cbn in Hs, Hall. simplify_eq. by rewrite Hc in Hall.
Qed.

Lemma at_eol_spec (s : string) :
  at_eol s = true <-> s = EmptyString \/ s = nl.
Proof.
  destruct s as [|c [|c' s]]; cbn.
  - naive_solver.
  - case_decide; subst; unfold nl; naive_solver.
  - unfold nl. naive_solver.
Qed.

Lemma all_chars_ext (p q : ascii -> bool) (s : string) :
  (forall c, p c = q c) -> all_chars p s = all_chars q s.
Proof.
  intros Hpq. induction s as [|c s IH]; cbn; [done|]. by rewrite Hpq, IH.
Qed.

Lemma hex_set_matches (c : ascii) :
  atom_matches (Set_ [("a", "f"); ("A", "F"); ("0", "9")]%char) c = is_hex c.
Proof. unfold is_hex. cbn. by rewrite orb_false_r, orb_assoc. Qed.

Lemma well_formed_address_spec (a : string) :
  well_formed_address a = true <->
  exists h, a = "0x" +:+ h /\ String.length h = 40%nat
            /\ all_chars is_hex h = true.
Proof.
  destruct a as [|c0 [|c1 h]]; cbn; [naive_solver..|].
  rewrite !andb_true_iff, !bool_decide_eq_true, Nat.eqb_eq. split.
  - intros [[[-> ->] Hlen] Hall]. by exists h.
  - intros (h' & [= -> -> ->] & Hlen & Hall). done.
Qed.

(** What the pattern accepts: the prefix, 40 hexadecimal digits, and then
    either nothing or one newline. *)
Lemma is_valid_ethereum_address_spec (a : string) :
  is_valid_ethereum_address a = true <->
  exists h, String.length h = 40%nat /\ all_chars is_hex h = true
            /\ (a = "0x" +:+ h \/ a = "0x" +:+ h +:+ nl).
Proof.
  unfold is_valid_ethereum_address, match_, ETH_ADDRESS_PATTERN.
  cbn [matches_at andb].
  destruct (consume (Lit "0") 1 a) as [s1|] eqn:H0.
  2:{ split; [done|]. intros (h & _ & _ & [-> | ->]); cbn in H0; done. }
  apply consume_Some in H0 as ([|c0 [|? ?]] & -> & [=] & Hc0).
  cbn in Hc0. case_decide; [subst c0|done]. cbn [String.append].
  destruct (consume (Lit "x") 1 s1) as [s2|] eqn:H1.
  2:{ split; [done|].
      intros (h & _ & _ & [[= ->] | [= ->]]); cbn in H1; done. }
  apply consume_Some in H1 as ([|c1 [|? ?]] & -> & [=] & Hc1).
  cbn in Hc1. case_decide; [subst c1|done]. cbn [String.append].
  destruct (consume _ 40 s2) as [s3|] eqn:H2.
  - apply consume_Some in H2 as (h & -> & Hlen & Hall).
    rewrite (all_chars_ext _ _ _ hex_set_matches) in Hall.
    rewrite andb_true_r, at_eol_spec. split.
    + intros [-> | ->]; exists h; rewrite ?append_empty_r; auto.
    + intros (h' & Hlen' & _ & Heq).
      assert (forall x y z w : string,
                 String.length x = String.length y ->
                 x +:+ z = y +:+ w -> z = w) as Hinj.
      { clear. induction x as [|c x IH]; intros [|d y] z w Hl He;
          cbn in *; try done. simplify_eq. eauto. }
      destruct Heq as [[= Heq] | [= Heq]].
      * left. rewrite <- (append_empty_r h') in Heq.
        eapply Hinj; [|exact Heq]. congruence.
      * right. eapply Hinj; [|exact Heq]. congruence.
  - split; [done|]. intros (h & Hlen & Hall & Heq). exfalso.
    assert (consume (Set_ [("a", "f"); ("A", "F"); ("0", "9")]%char) 40 s2
            <> None) as Hne; [|done].
    destruct Heq as [[= ->] | [= ->]].
    + intros Hn. assert (consume
        (Set_ [("a", "f"); ("A", "F"); ("0", "9")]%char) 40 h
        = Some EmptyString) as Hs; [|congruence].
      apply consume_Some. exists h. rewrite append_empty_r.
      by rewrite (all_chars_ext _ _ _ hex_set_matches).
    + intros Hn. assert (consume
        (Set_ [("a", "f"); ("A", "F"); ("0", "9")]%char) 40 (h +:+ nl)
        = Some nl) as Hs; [|congruence].
      apply consume_Some. exists h.
      by rewrite (all_chars_ext _ _ _ hex_set_matches).
Qed.

End AddressValidation.

(** ** Fallible computations *)

Lemma bind_Ok {A B} (r : result A) (k : A -> result B) (b : B) :
  bind r k = Ok b <-> exists a, r = Ok a /\ k a = Ok b.
Proof. destruct r; cbn; naive_solver. Qed.

Lemma bind_Raise {A B} (r : result A) (k : A -> result B) (e : exn) :
  r = Raise e -> bind r k = Raise e.
Proof. by intros ->. Qed.

Ltac inv_bind H :=
  let x := fresh "x" in
  let E := fresh "E" in
  apply bind_Ok in H as (x & E & H).

Lemma for_each_app {A S} (body : A -> S -> result S) (xs ys : list A) (st : S) :
  for_each body (xs ++ ys) st =
  let! st' := for_each body xs st in for_each body ys st'.
Proof.
  revert st. induction xs as [|x xs IH]; intros st; cbn; [done|].
  destruct (body x st); cbn; [apply IH|done].
Qed.

(** A loop raises as soon as the body raises on one element, whatever the
    state it is reached in. *)
Lemma for_each_raises {A S} (body : A -> S -> result S) (xs : list A) (x : A) :
  x ∈ xs -> (forall st, exists e, body x st = Raise e) ->
  forall st, exists e, for_each body xs st = Raise e.
Proof.
  intros Hin Hx. induction xs as [|y xs IH]; intros st.
  - by apply not_elem_of_nil in Hin.
  - cbn. apply elem_of_cons in Hin as [<- | Hin].
    + destruct (Hx st) as [e ->]. by exists e.
    + destruct (body y st) as [st'|e]; cbn; [by apply IH|by exists e].
Qed.

(** ** Reconciliation of one candidate *)

Section Reconciliation.
Context {rt : PyRuntime}.
Import FilterAndUpdateRewards.

(** A candidate that passes Steps 1 and 2 reaches Step 3. *)
Lemma loop_body_candidate (uq : gset string) (ms : gmap string jobject)
    (row : dict) (st : acc) (a : string) :
  dict_get ADDRESS row = Ok a ->
  is_valid_ethereum_address (lower a) = true ->
  lower a ∉ uq ->
  loop_body uq ms row st =
  match ms !! lower a with
  | Some stats =>
      let! csv_total_tokens := float_field BASE row in
      let! json_total_tokens := json_total stats in
      if fge json_total_tokens csv_total_tokens then
        record row row (Ok csv_total_tokens) st
      else
        record (dict_set BASE (str_of_float json_total_tokens) row) row
          (Ok json_total_tokens) st
  | None => record row row (float_field BASE row) st
  end.
Proof.
  intros Ha Hvalid Hnew. unfold loop_body. rewrite Ha. cbn [bind].
  rewrite Hvalid. cbn [negb]. by case_decide.
Qed.

Lemma record_Ok (r row : dict) (st : acc) (w l b : float) :
  float_field WAIFU row = Ok w -> float_field LLAMA row = Ok l ->
  record r row (Ok b) st = Ok (appended r w l b st).
Proof. intros Hw Hl. unfold record. by rewrite Hw, Hl. Qed.

(** Step 3 for a candidate with a remote record. *)
Lemma loop_body_remote (uq : gset string) (ms : gmap string jobject)
    (row : dict) (st : acc) (a : string) (stats : jobject)
    (csv json w l : float) :
  dict_get ADDRESS row = Ok a ->
  is_valid_ethereum_address (lower a) = true ->
  lower a ∉ uq ->
  ms !! lower a = Some stats ->
  float_field BASE row = Ok csv ->
  json_total stats = Ok json ->
  float_field WAIFU row = Ok w ->
  float_field LLAMA row = Ok l ->
  loop_body uq ms row st =
    Ok (if fge json csv then appended row w l csv st
        else appended (dict_set BASE (str_of_float json) row) w l json st).
Proof.
  intros Ha Hvalid Hnew Hms Hcsv Hjson Hw Hl.
  rewrite (loop_body_candidate _ _ _ _ a), Hms, Hcsv by done.
  cbn [bind]. rewrite Hjson. cbn [bind].
  destruct (fge json csv); by apply record_Ok.
Qed.

(** Step 3 for a candidate without a remote record. *)
Lemma loop_body_local (uq : gset string) (ms : gmap string jobject)
    (row : dict) (st : acc) (a : string) (csv w l : float) :
  dict_get ADDRESS row = Ok a ->
  is_valid_ethereum_address (lower a) = true ->
  lower a ∉ uq ->
  ms !! lower a = None ->
  float_field BASE row = Ok csv ->
  float_field WAIFU row = Ok w ->
  float_field LLAMA row = Ok l ->
  loop_body uq ms row st = Ok (appended row w l csv st).
Proof.
  intros Ha Hvalid Hnew Hms Hcsv Hw Hl.
  rewrite (loop_body_candidate _ _ _ _ a), Hms by done.
  unfold record. by rewrite Hw, Hl, Hcsv.
Qed.

Lemma dict_lookup_set (k v k' : string) (d : dict) :
  dict_lookup k' (dict_set k v d) =
  if decide (k = k') then Some v else dict_lookup k' d.
Proof.
  induction d as [|[k0 v0] d IH]; cbn.
  - by case_decide.
  - destruct (decide (k0 = k)) as [->|Hk0]; cbn.
    + by case_decide.
    + rewrite IH. repeat case_decide; congruence.
Qed.

Lemma dict_keys_set (k v : string) (d : dict) :
  is_Some (dict_lookup k d) -> dict_keys (dict_set k v d) = dict_keys d.
Proof.
  induction d as [|[k0 v0] d IH]; cbn; [by intros [? [=]]|].
  case_decide; cbn; [by subst|]. intros Hk. unfold dict_keys in IH.
  by rewrite IH.
Qed.

Lemma dict_get_Ok (k : string) (d : dict) (v : string) :
  dict_get k d = Ok v <-> dict_lookup k d = Some v.
Proof. unfold dict_get. destruct (dict_lookup k d); naive_solver. Qed.

Lemma float_field_lookup (k : string) (d : dict) (x : float) :
  float_field k d = Ok x -> is_Some (dict_lookup k d).
Proof.
  unfold float_field. intros Hf. inv_bind Hf.
  apply dict_get_Ok in E. eauto.
Qed.

End Reconciliation.

(** C3. [is_valid_ethereum_address] is meant to accept exactly the strings
    made of [0x] and 40 hexadecimal digits. The pattern ends in [$], which
    also matches before a final newline: the 43 characters of a well-formed
    address followed by a newline are not a well-formed address, and the
    function returns true on them. *)
Theorem is_valid_ethereum_address_trailing_newline :
  String.length (sample_address +:+ nl) = 43%nat
  /\ well_formed_address (sample_address +:+ nl) = false
  /\ FilterAndUpdateRewards.is_valid_ethereum_address (sample_address +:+ nl)
     = true.
Proof. by vm_compute. Qed.

Section ReconciliationClaims.
Context {rt : PyRuntime}.
Import FilterAndUpdateRewards.

(** C1, as the code has it. For a candidate that passes Steps 1 and 2 and
    has a remote record, the reconciled base-token total is the smaller of
    the local and the remote total: when the remote total is greater than or
    equal to the local one the candidate is kept as it is and its local total
    counts; otherwise the remote total replaces it. On numbers the total
    that counts is below or equal to both. *)
Theorem reconcile_keeps_smaller_total (uq : gset string)
    (ms : gmap string jobject) (row : dict) (st : acc) (a : string)
    (stats : jobject) (csv json w l : float) :
  dict_get ADDRESS row = Ok a ->
  is_valid_ethereum_address (lower a) = true ->
  lower a ∉ uq ->
  ms !! lower a = Some stats ->
  float_field BASE row = Ok csv ->
  json_total stats = Ok json ->
  float_field WAIFU row = Ok w ->
  float_field LLAMA row = Ok l ->
  loop_body uq ms row st =
    Ok (if fge json csv then appended row w l csv st
        else appended (dict_set BASE (str_of_float json) row) w l json st)
  /\ (is_nan csv = false -> is_nan json = false ->
      let total := if fge json csv then csv else json in
      SFleb total csv = true /\ SFleb total json = true).
Proof.
  intros Ha Hvalid Hnew Hms Hcsv Hjson Hw Hl. split.
  - by apply (loop_body_remote _ _ _ _ a stats).
  - intros Hc Hj. cbn. destruct (fge json csv) eqn:Hge.
    + split; [by apply (fge_refl csv)|exact Hge].
    + split; [|by apply (fge_refl json)].
      by apply SFltb_le, fge_false_lt.
Qed.

(** C2, as the code has it. For a candidate that passes Steps 1 and 2 and
    whose remote record has neither [revisedTokens] nor [totalTokens], the
    loop body raises: [KeyError] for [totalTokens] once the local total has
    been read. The exception is not handled: a run over a rewards file
    with such a candidate raises and writes nothing. *)
Theorem missing_remote_totals_raise (uq : gset string)
    (ms : gmap string jobject) (row : dict) (a : string) (stats : jobject) :
  dict_get ADDRESS row = Ok a ->
  is_valid_ethereum_address (lower a) = true ->
  lower a ∉ uq ->
  ms !! lower a = Some stats ->
  stats !! "revisedTokens" = None ->
  stats !! "totalTokens" = None ->
  (forall st, exists e, loop_body uq ms row st = Raise e)
  /\ (forall st csv, float_field BASE row = Ok csv ->
        loop_body uq ms row st = Raise (KeyError "totalTokens"))
  /\ (forall rewards unique items output_path,
        load_unique_addresses unique = Ok uq ->
        load_miner_stats items = Ok ms ->
        row ∈ rewards ->
        exists e,
          process_miner_rewards rewards unique items output_path = Raise e).
Proof.
  intros Ha Hvalid Hnew Hms Hrev Htot.
  assert (forall st, loop_body uq ms row st =
            let! csv := float_field BASE row in Raise (KeyError "totalTokens"))
    as Hbody.
  { intros st. rewrite (loop_body_candidate _ _ _ _ a), Hms by done.
    unfold json_total. by rewrite Hrev, Htot. }
  assert (forall st, exists e, loop_body uq ms row st = Raise e) as Hraise.
  { intros st. rewrite Hbody. destruct (float_field BASE row); cbn; eauto. }
  split; [done|]. split.
  - intros st csv Hcsv. by rewrite Hbody, Hcsv.
  - intros rewards unique items output_path Huq Hitems Hin.
    unfold process_miner_rewards, filtered_rows, process_rows.
    rewrite Huq, Hitems. cbn [bind].
    destruct (for_each_raises _ _ _ Hin Hraise initial) as [e ->].
    by exists e.
Qed.

(** C5. Reconciliation changes no field of a candidate but its base-token
    total. A candidate that passes Steps 1 and 2 and whose amounts can be
    read is appended as a record with the same keys and, at every key other
    than the base-token total, the same text, the two reward amounts among
    them; without a remote record it is appended as it is. *)
Theorem reconcile_frame (uq : gset string) (ms : gmap string jobject)
    (row : dict) (st : acc) (a : string) (csv w l : float) :
  dict_get ADDRESS row = Ok a ->
  is_valid_ethereum_address (lower a) = true ->
  lower a ∉ uq ->
  float_field BASE row = Ok csv ->
  float_field WAIFU row = Ok w ->
  float_field LLAMA row = Ok l ->
  (forall stats, ms !! lower a = Some stats ->
     exists json, json_total stats = Ok json) ->
  exists r st',
    loop_body uq ms row st = Ok st'
    /\ processed_data st' = processed_data st ++ [r]
    /\ dict_keys r = dict_keys row
    /\ (forall k, k <> BASE -> dict_lookup k r = dict_lookup k row)
    /\ dict_lookup WAIFU r = dict_lookup WAIFU row
    /\ dict_lookup LLAMA r = dict_lookup LLAMA row
    /\ (ms !! lower a = None -> r = row).
Proof.
  intros Ha Hvalid Hnew Hcsv Hw Hl Hremote.
  destruct (ms !! lower a) as [stats|] eqn:Hms.
  - destruct (Hremote stats eq_refl) as [json Hjson].
    pose proof (loop_body_remote uq ms row st a stats csv json w l
                  Ha Hvalid Hnew Hms Hcsv Hjson Hw Hl) as Hbody.
    destruct (fge json csv).
    + exists row, (appended row w l csv st). by rewrite Hbody.
    + exists (dict_set BASE (str_of_float json) row),
        (appended (dict_set BASE (str_of_float json) row) w l json st).
      rewrite Hbody. repeat split; try done.
      * apply dict_keys_set. by eapply float_field_lookup.
      * intros k Hk. rewrite dict_lookup_set. by case_decide.
      * by rewrite dict_lookup_set.
      * by rewrite dict_lookup_set.
  - exists row, (appended row w l csv st).
    by rewrite (loop_body_local uq ms row st a csv w l).
Qed.

End ReconciliationClaims.

(** ** Worked examples of reconciliation, in CPython *)

Section ReconciliationExamples.
Import FilterAndUpdateRewards.
#[local] Existing Instance CPython.runtime.

(** C1 as stated fails: with local total 100 and remote total 80 the
    reconciled record carries 80.0, which is not the larger of the two. *)
Lemma reconcile_local_100_remote_80 :
  loop_body ∅ {[ sample_address := remote_record "totalTokens" (JInt 80) ]}
    (candidate "2" "3" "100") initial
  = Ok (appended (candidate "2" "3" "80.0")
          (number "2") (number "3") (number "80") initial)
  /\ float_field BASE (candidate "2" "3" "80.0") = Ok (number "80")
  /\ fge (number "80") (number "100") = false.
Proof. by vm_compute. Qed.

Lemma reconcile_keeps_smaller_total_witness :
  loop_body ∅ {[ sample_address := remote_record "totalTokens" (JInt 100) ]}
    (candidate "2" "3" "80") initial
  = Ok (appended (candidate "2" "3" "80")
          (number "2") (number "3") (number "80") initial)
  /\ SFleb (number "80") (number "80") = true
  /\ SFleb (number "80") (number "100") = true.
Proof.
  destruct (reconcile_keeps_smaller_total ∅
              {[ sample_address := remote_record "totalTokens" (JInt 100) ]}
              (candidate "2" "3" "80") initial sample_address
              (remote_record "totalTokens" (JInt 100))
              (number "80") (number "100") (number "2") (number "3"))
    as [Hbody Hmin]; [reflexivity | reflexivity | set_solver
                     | reflexivity | reflexivity | reflexivity
                     | reflexivity | reflexivity |].
  split; [exact Hbody | apply Hmin; reflexivity].
Defined.

(** C2 as stated fails: a remote record with neither figure does not let
    the local values through, the lookup of [totalTokens] raises. *)
Lemma reconcile_missing_totals_raises :
  loop_body ∅ {[ sample_address := remote_record "totalWaifu" (JInt 80) ]}
    (candidate "2" "3" "100") initial
  = Raise (KeyError "totalTokens")
  /\ process_miner_rewards [candidate "2" "3" "100"] []
       [remote_record "totalWaifu" (JInt 80)] "out.csv"
     = Raise (KeyError "totalTokens").
Proof. by vm_compute. Qed.

Lemma missing_remote_totals_raise_witness :
  loop_body ∅ {[ sample_address := remote_record "totalWaifu" (JInt 80) ]}
    (candidate "2" "3" "100") initial
  = Raise (KeyError "totalTokens").
Proof.
  destruct (missing_remote_totals_raise ∅
              {[ sample_address := remote_record "totalWaifu" (JInt 80) ]}
              (candidate "2" "3" "100") sample_address
              (remote_record "totalWaifu" (JInt 80)))
    as (_ & Hbody & _); [reflexivity | reflexivity | set_solver
                        | reflexivity | reflexivity | reflexivity |].
  by apply (Hbody initial (number "100")).
Defined.

Lemma reconcile_frame_witness :
  exists r st',
    loop_body ∅ {[ sample_address := remote_record "revisedTokens" (JInt 12) ]}
      (candidate "2" "3" "50") initial = Ok st'
    /\ processed_data st' = [r]
    /\ dict_lookup WAIFU r = Some "2"
    /\ dict_lookup LLAMA r = Some "3".
Proof.
  destruct (reconcile_frame ∅
              {[ sample_address := remote_record "revisedTokens" (JInt 12) ]}
              (candidate "2" "3" "50") initial sample_address
              (number "50") (number "2") (number "3"))
    as (r & st' & Hbody & Hdata & _ & _ & Hw & Hl & _);
    [reflexivity | reflexivity | set_solver
    | reflexivity | reflexivity | reflexivity | |].
  - intros stats Hstats. exists (number "12").
    apply lookup_singleton_Some in Hstats as [_ <-]. reflexivity.
  - exists r, st'. done.
Defined.

End ReconciliationExamples.

(** ** Comprehensions *)

Lemma ok_part_Some {A} (r : result A) (a : A) : ok_part r = Some a <-> r = Ok a.
Proof. destruct r; cbn; naive_solver. Qed.

Lemma filter_result_app {A} (p : A -> result bool) (xs ys : list A) :
  filter_result p (xs ++ ys) =
  let! a := filter_result p xs in
  let! b := filter_result p ys in Ok (a ++ b).
Proof.
  induction xs as [|x xs IH]; cbn.
  - by destruct (filter_result p ys).
  - destruct (p x) as [b|]; cbn; [|done]. rewrite IH.
    destruct (filter_result p xs); cbn; [|done].
    destruct (filter_result p ys); cbn; [|done]. by destruct b.
Qed.

Lemma filter_result_Ok {A} (p : A -> result bool) (xs ys : list A) :
  filter_result p xs = Ok ys ->
  ys `sublist_of` xs /\ forall x, x ∈ ys <-> x ∈ xs /\ p x = Ok true.
Proof.
  revert ys. induction xs as [|x0 xs IH]; intros ys Hf; cbn in Hf.
  - injection Hf as <-. split; [done|]. intros x. rewrite elem_of_nil. tauto.
  - inv_bind Hf. inv_bind Hf. injection Hf as <-.
    destruct (IH _ E0) as [Hsub Hmem]. destruct x.
    + split; [by apply sublist_skip|]. intros y.
      rewrite !elem_of_cons, Hmem. clear IH Hmem.
      split; [intros [->|[? ?]]; auto|intros [[->|?] ?]; auto].
    + split; [by apply sublist_cons|]. intros y.
      rewrite elem_of_cons, Hmem. clear IH Hmem.
      split; [intros [? ?]; auto|intros [[->|?] ?]; [congruence|auto]].
Qed.

Lemma filter_result_total {A} (p : A -> result bool) (xs : list A) :
  (forall x, x ∈ xs -> exists b, p x = Ok b) ->
  exists ys, filter_result p xs = Ok ys.
Proof.
  induction xs as [|x xs IH]; intros Hp; cbn; [by eexists|].
  destruct (Hp x) as [b ->]; [by left|].
  destruct IH as [ys ->]; [intros y Hy; apply Hp; by right|].
  cbn. by eexists.
Qed.

Lemma map_result_Ok_lookup {A B} (f : A -> result B) (xs : list A)
    (ys : list B) :
  map_result f xs = Ok ys -> Forall2 (fun x y => f x = Ok y) xs ys.
Proof.
  revert ys. induction xs as [|x xs IH]; intros ys Hm; cbn in Hm.
  - injection Hm as <-. constructor.
  - inv_bind Hm. inv_bind Hm. injection Hm as <-. constructor; auto.
Qed.

Lemma map_result_total {A B} (f : A -> result B) (xs : list A) :
  (forall x, x ∈ xs -> exists y, f x = Ok y) ->
  exists ys, map_result f xs = Ok ys.
Proof.
  induction xs as [|x xs IH]; intros Hf; cbn; [by eexists|].
  destruct (Hf x) as [y ->]; [by left|].
  destruct IH as [ys ->]; [intros z Hz; apply Hf; by right|].
  cbn. by eexists.
Qed.

Lemma elem_of_concat {A} (x : A) (ls : list (list A)) :
  x ∈ concat ls <-> exists l, l ∈ ls /\ x ∈ l.
Proof.
  rewrite list_elem_of_In, in_concat. split; intros (l & Hl & Hx); exists l.
  - by rewrite !list_elem_of_In.
  - by rewrite <- !list_elem_of_In.
Qed.

Lemma map_result_pure {A B} (f : A -> B) (xs : list A) :
  map_result (fun x => Ok (f x)) xs = Ok (map f xs).
Proof. induction xs as [|x xs IH]; cbn; [done|]. by rewrite IH. Qed.

Lemma map_result_ext {A B} (f g : A -> result B) (xs : list A) :
  (forall x, x ∈ xs -> f x = g x) -> map_result f xs = map_result g xs.
Proof.
  induction xs as [|x xs IH]; intros Hfg; cbn; [done|].
  rewrite Hfg by (by left). rewrite IH; [done|].
  intros y Hy. apply Hfg. by right.
Qed.

(** ** The loop, one candidate at a time *)

Section Loop.
Context {rt : PyRuntime}.
Import FilterAndUpdateRewards.

Lemma loop_body_step (uq : gset string) (ms : gmap string jobject)
    (row : dict) (st : acc) :
  loop_body uq ms row st =
  let! o := step uq ms row in Ok (apply_step o st).
Proof.
  unfold loop_body, step, record.
  destruct (dict_get ADDRESS row) as [a|]; cbn [bind]; [|done].
  destruct (negb _); [done|]. case_decide; [done|].
  destruct (ms !! lower a) as [stats|].
  - destruct (float_field BASE row) as [csv|]; cbn [bind]; [|done].
    destruct (json_total stats) as [json|]; cbn [bind]; [|done].
    destruct (fge json csv);
      destruct (float_field WAIFU row); cbn [bind]; try done;
      destruct (float_field LLAMA row); cbn [bind]; done.
  - destruct (float_field WAIFU row); cbn [bind]; [|done].
    destruct (float_field LLAMA row); cbn [bind]; [|done].
    by destruct (float_field BASE row).
Qed.

Lemma processed_data_apply_step (o : option (dict * float * float * float))
    (st : acc) :
  processed_data (apply_step o st) = processed_data st ++ records o.
Proof. destruct o as [[[[r w] l] b]|]; cbn; [done|by rewrite app_nil_r]. Qed.

Lemma filtered_rows_from (uq : gset string) (ms : gmap string jobject)
    (rows : list dict) (st : acc) :
  ok_part (let! st' := for_each (loop_body uq ms) rows st in
           threshold (processed_data st')) =
  ok_part (let! pre := threshold (processed_data st) in
           let! rss := map_result (survivors uq ms) rows in
           Ok (pre ++ concat rss)).
Proof.
  revert st. induction rows as [|row rows IH]; intros st; cbn.
  - destruct (threshold (processed_data st)); cbn; [|done].
    by rewrite app_nil_r.
  - rewrite loop_body_step. unfold survivors.
    destruct (step uq ms row) as [o|]; cbn.
    2:{ by destruct (threshold (processed_data st)). }
    rewrite IH, processed_data_apply_step. unfold threshold.
    rewrite filter_result_app.
    destruct (filter_result _ (processed_data st)) as [pre|]; cbn; [|done].
    destruct (filter_result _ (records o)) as [s|]; cbn; [|done].
    destruct (map_result _ rows) as [rss|]; cbn; [|done].
    by rewrite app_assoc.
Qed.

(** The surviving records are those of the first row, then those of the
    second, and so on. *)
Lemma filtered_rows_survivors (uq : gset string) (ms : gmap string jobject)
    (rows rs : list dict) :
  filtered_rows uq ms rows = Ok rs <->
  exists rss, map_result (survivors uq ms) rows = Ok rss /\ rs = concat rss.
Proof.
  rewrite <- ok_part_Some. unfold filtered_rows, process_rows.
  rewrite filtered_rows_from. cbn.
  destruct (map_result _ rows) as [rss|]; cbn; naive_solver.
Qed.

End Loop.

(** ** The threshold *)

(** C4. The threshold on the reconciled base-token total is inclusive at 1:
    whenever the totals of the reconciled records can be read, Step 4 keeps,
    in their order, exactly the records whose total is greater than or equal
    to 1. A record with total 1.0 is kept, one with total 0.999999 is
    dropped. *)
Theorem threshold_inclusive_at_one :
  (forall (rt : PyRuntime) (processed : list dict),
     (forall r, r ∈ processed ->
        exists x, FilterAndUpdateRewards.float_field
                    FilterAndUpdateRewards.BASE r = Ok x) ->
     exists filtered,
       FilterAndUpdateRewards.threshold processed = Ok filtered
       /\ filtered `sublist_of` processed
       /\ forall r, r ∈ filtered <->
            r ∈ processed
            /\ exists x, FilterAndUpdateRewards.float_field
                           FilterAndUpdateRewards.BASE r = Ok x
                         /\ fge x float_one = true)
  /\ FilterAndUpdateRewards.threshold (rt := CPython.runtime)
       [candidate "2" "3" "1.0"; candidate "2" "3" "0.999999"]
     = Ok [candidate "2" "3" "1.0"].
Proof.
  split; [|by vm_compute].
  intros rt processed Hread.
  destruct (filter_result_total
              (fun row =>
                 let! x := FilterAndUpdateRewards.float_field
                             FilterAndUpdateRewards.BASE row in
                 Ok (fge x float_one)) processed) as [filtered Hf].
  { intros r Hr. destruct (Hread r Hr) as [x ->]. cbn. by eexists. }
  exists filtered. split; [exact Hf|].
  destruct (filter_result_Ok _ _ _ Hf) as [Hsub Hmem]. split; [done|].
  intros r. rewrite Hmem. split.
  - intros [Hr Hp]. split; [done|]. inv_bind Hp. exists x. split; [done|].
    congruence.
  - intros [Hr (x & Hx & Hge)]. split; [done|]. by rewrite Hx; cbn; rewrite Hge.
Qed.

Lemma threshold_inclusive_at_one_witness :
  exists filtered,
    FilterAndUpdateRewards.threshold (rt := CPython.runtime)
      [candidate "2" "3" "1"; candidate "2" "3" "0.5"] = Ok filtered
    /\ candidate "2" "3" "1" ∈ filtered.
Proof.
  destruct (proj1 threshold_inclusive_at_one CPython.runtime
              [candidate "2" "3" "1"; candidate "2" "3" "0.5"])
    as (filtered & Hf & _ & Hmem).
  - intros r Hr. apply elem_of_cons in Hr as [-> | Hr].
    + by exists (number "1").
    + apply list_elem_of_singleton in Hr as ->. by exists (number "0.5").
  - exists filtered. split; [exact Hf|]. apply Hmem. split; [by left|].
    by exists (number "1").
Defined.

(** ** The output *)

Section Output.
Context {rt : PyRuntime}.
Import FilterAndUpdateRewards.

Lemma dict_lookup_keys (k : string) (d : dict) :
  is_Some (dict_lookup k d) <-> k ∈ dict_keys d.
Proof.
  induction d as [|[k0 v0] d IH]; cbn.
  - rewrite elem_of_nil. split; [by intros [? [=]]|done].
  - rewrite elem_of_cons. case_decide; subst; [naive_solver|].
    rewrite IH. naive_solver.
Qed.

Lemma dict_to_list_Ok (fieldnames : list string) (rowdict : dict) :
  dict_keys rowdict ⊆ fieldnames ->
  dict_to_list fieldnames rowdict = Ok (render fieldnames rowdict).
Proof.
  intros Hsub. unfold dict_to_list.
  replace (forallb _ (dict_keys rowdict)) with true; [done|].
  symmetry. apply forallb_forall. intros k Hk.
  apply bool_decide_eq_true, Hsub. by apply list_elem_of_In.
Qed.

Lemma render_blank (fieldnames : list string) :
  render fieldnames (map (fun field => (field, EmptyString)) fieldnames)
  = map (fun _ => EmptyString) fieldnames.
Proof.
  unfold render. apply map_ext. intros k. unfold dict_get_default.
  generalize fieldnames. intros l. induction l as [|k0 l IH]; cbn; [done|].
  by case_decide.
Qed.

Lemma render_total (fieldnames : list string) (w l b : float) :
  render fieldnames
    [ (ADDRESS, "TOTAL"); (WAIFU, str_of_float w);
      (LLAMA, str_of_float l); (BASE, str_of_float b) ]
  = total_line fieldnames w l b.
Proof.
  unfold render, total_line. apply map_ext. intros k.
  unfold dict_get_default. cbn. repeat case_decide; congruence.
Qed.

(** The [with] block, for records that all have the keys of the first and
    the four columns among them. *)
Lemma write_results_Ok (output_path : string) (first : dict)
    (rest : list dict) (w l b : float) :
  (forall r, r ∈ first :: rest -> dict_keys r = dict_keys first) ->
  ADDRESS ∈ dict_keys first -> WAIFU ∈ dict_keys first ->
  LLAMA ∈ dict_keys first -> BASE ∈ dict_keys first ->
  write_results output_path (first :: rest) w l b =
  Ok {| written :=
          dict_keys first
          :: map (render (dict_keys first)) (first :: rest)
          ++ [ map (fun _ => EmptyString) (dict_keys first);
               total_line (dict_keys first) w l b ];
        printed := report output_path w l b |}.
Proof.
  intros Hkeys Ha Hw Hl Hb. unfold write_results.
  rewrite (map_result_ext _ (fun r => Ok (render (dict_keys first) r))).
  2:{ intros r Hr. apply dict_to_list_Ok. by rewrite (Hkeys r Hr). }
  rewrite map_result_pure. cbn [bind].
  rewrite dict_to_list_Ok.
  2:{ unfold dict_keys. rewrite map_map. cbn. by rewrite map_id. }
  cbn [bind]. rewrite dict_to_list_Ok.
  2:{ intros k Hk. cbn in Hk.
      repeat (apply elem_of_cons in Hk as [-> | Hk]; [done|]).
      by apply elem_of_nil in Hk. }
  cbn [bind]. by rewrite render_blank, render_total.
Qed.

End Output.

(** ** Records that survive *)

Section Survivors.
Context {rt : PyRuntime}.
Import FilterAndUpdateRewards.

Lemma float_field_ext (k : string) (r r' : dict) :
  dict_lookup k r = dict_lookup k r' -> float_field k r = float_field k r'.
Proof. intros Hk. unfold float_field, dict_get. by rewrite Hk. Qed.

(** A record the loop appends has the keys of its row, the four columns
    among them, and reward amounts that can be read. *)
Lemma step_Some (uq : gset string) (ms : gmap string jobject)
    (row r : dict) (w l b : float) :
  step uq ms row = Ok (Some (r, w, l, b)) ->
  dict_keys r = dict_keys row
  /\ ADDRESS ∈ dict_keys row /\ BASE ∈ dict_keys row
  /\ float_field WAIFU r = Ok w /\ float_field LLAMA r = Ok l.
Proof.
  unfold step. intros Hs. inv_bind Hs.
  assert (ADDRESS ∈ dict_keys row) as Haddr.
  { apply dict_lookup_keys. apply dict_get_Ok in E. eauto. }
  destruct (negb _); [done|]. case_decide; [done|].
  destruct (ms !! lower x) as [stats|].
  - inv_bind Hs. inv_bind Hs. inv_bind Hs. inv_bind Hs.
    assert (BASE ∈ dict_keys row) as Hbase.
    { apply dict_lookup_keys. by eapply float_field_lookup. }
    destruct (fge x1 x0); injection Hs as <- <- <- <-; [done|].
    split; [|split; [done|split; [done|]]].
    + apply dict_keys_set. by eapply float_field_lookup.
    + split.
      * rewrite <- E2. apply float_field_ext. by rewrite dict_lookup_set.
      * rewrite <- E3. apply float_field_ext. by rewrite dict_lookup_set.
  - inv_bind Hs. inv_bind Hs. inv_bind Hs. injection Hs as <- <- <- <-.
    repeat split; try done.
    apply dict_lookup_keys. by eapply float_field_lookup.
Qed.

Lemma survivors_inv (uq : gset string) (ms : gmap string jobject)
    (row r : dict) (s : list dict) :
  survivors uq ms row = Ok s -> r ∈ s ->
  exists w l b x, step uq ms row = Ok (Some (r, w, l, b))
                  /\ float_field BASE r = Ok x /\ fge x float_one = true.
Proof.
  unfold survivors. intros Hs Hr. inv_bind Hs.
  destruct (filter_result_Ok _ _ _ Hs) as [_ Hmem].
  apply Hmem in Hr as [Hr Hp]. inv_bind Hp. injection Hp as Hge.
  destruct x as [[[[r' w] l] b]|]; cbn in Hr; [|by apply elem_of_nil in Hr].
  apply list_elem_of_singleton in Hr as ->. by exists w, l, b, x0.
Qed.

Lemma filtered_rows_inv (uq : gset string) (ms : gmap string jobject)
    (rewards filtered : list dict) (r : dict) :
  filtered_rows uq ms rewards = Ok filtered -> r ∈ filtered ->
  exists row w l b x,
    row ∈ rewards /\ step uq ms row = Ok (Some (r, w, l, b))
    /\ float_field BASE r = Ok x /\ fge x float_one = true.
Proof.
  intros Hf Hr. apply filtered_rows_survivors in Hf as (rss & Hrss & ->).
  apply elem_of_concat in Hr as (s & Hs & Hr).
  apply map_result_Ok_lookup in Hrss.
  apply list_elem_of_lookup in Hs as [i Hi].
  destruct (Forall2_lookup_r _ _ _ _ _ Hrss Hi) as (row & Hrow & Hsurv).
  destruct (survivors_inv _ _ _ _ _ Hsurv Hr) as (w & l & b & x & ?).
  exists row, w, l, b, x. split; [|done].
  apply list_elem_of_lookup. eauto.
Qed.

(** A run that has surviving records completes, provided the rows of the
    rewards file all have the same keys, as those of [csv.DictReader]
    have. *)
Lemma process_miner_rewards_Ok (rewards unique : list dict)
    (items : list jobject) (output_path : string) (uq : gset string)
    (ms : gmap string jobject) (first : dict) (rest : list dict)
    (header : list string) :
  load_unique_addresses unique = Ok uq ->
  load_miner_stats items = Ok ms ->
  (forall row, row ∈ rewards -> dict_keys row = header) ->
  filtered_rows uq ms rewards = Ok (first :: rest) ->
  exists ws ls bs,
    map_result (float_field WAIFU) (first :: rest) = Ok ws
    /\ map_result (float_field LLAMA) (first :: rest) = Ok ls
    /\ map_result (float_field BASE) (first :: rest) = Ok bs
    /\ process_miner_rewards rewards unique items output_path =
       Ok {| written :=
               header
               :: map (render header) (first :: rest)
               ++ [ map (fun _ => EmptyString) header;
                    total_line header (py_sum ws) (py_sum ls) (py_sum bs) ];
             printed :=
               report output_path (py_sum ws) (py_sum ls) (py_sum bs) |}.
Proof.
  intros Huq Hms Hheader Hf.
  assert (forall r, r ∈ first :: rest ->
            dict_keys r = header /\ ADDRESS ∈ header /\ BASE ∈ header
            /\ (exists w, float_field WAIFU r = Ok w)
            /\ (exists l, float_field LLAMA r = Ok l)
            /\ (exists x, float_field BASE r = Ok x)) as Hinv.
  { intros r Hr.
    destruct (filtered_rows_inv _ _ _ _ _ Hf Hr)
      as (row & w & l & b & x & Hrow & Hstep & Hx & _).
    apply step_Some in Hstep as (Hk & Ha & Hb & Hw & Hl).
    rewrite (Hheader row Hrow) in Hk, Ha, Hb. eauto 10. }
  destruct (map_result_total (float_field WAIFU) (first :: rest))
    as [ws Hws]; [intros r Hr; by apply Hinv|].
  destruct (map_result_total (float_field LLAMA) (first :: rest))
    as [ls Hls]; [intros r Hr; by apply Hinv|].
  destruct (map_result_total (float_field BASE) (first :: rest))
    as [bs Hbs]; [intros r Hr; by apply Hinv|].
  exists ws, ls, bs. split; [done|]. split; [done|]. split; [done|].
  unfold process_miner_rewards, sum_field.
  rewrite Huq, Hms. cbn [bind]. rewrite Hf. cbn [bind].
  rewrite Hws, Hls, Hbs. cbn [bind].
  destruct (Hinv first) as (Hk & Ha & Hb & (w & Hw) & (l & Hl) & _);
    [by left|].
  rewrite write_results_Ok; rewrite ?Hk; try done.
  - intros r Hr. by apply Hinv.
  - rewrite <- Hk. apply dict_lookup_keys. by eapply float_field_lookup.
  - rewrite <- Hk. apply dict_lookup_keys. by eapply float_field_lookup.
Qed.

End Survivors.

(** ** The claims on the output *)

Section OutputClaims.
Import FilterAndUpdateRewards.

(** C6. When records survive, the output is the header, the surviving
    records in the order of their rows in the rewards file, one row of
    empty fields, and one row with [TOTAL] in the address column and, in
    the three amount columns, the sums of those columns over the surviving
    records: the sums are taken anew after the threshold, the totals the
    loop accumulated before it are not used. In the example the loop has
    accumulated a base total of 5.5 and the output carries 5.0. *)
Theorem totals_recomputed_after_filter :
  (forall (rt : PyRuntime) (rewards unique : list dict)
          (items : list jobject) (output_path : string) (uq : gset string)
          (ms : gmap string jobject) (filtered : list dict)
          (header : list string),
     load_unique_addresses unique = Ok uq ->
     load_miner_stats items = Ok ms ->
     (forall row, row ∈ rewards -> dict_keys row = header) ->
     filtered_rows uq ms rewards = Ok filtered ->
     filtered <> [] ->
     exists rss ws ls bs,
       map_result (survivors uq ms) rewards = Ok rss
       /\ filtered = concat rss
       /\ map_result (float_field WAIFU) filtered = Ok ws
       /\ map_result (float_field LLAMA) filtered = Ok ls
       /\ map_result (float_field BASE) filtered = Ok bs
       /\ process_miner_rewards rewards unique items output_path =
          Ok {| written :=
                  header
                  :: map (render header) filtered
                  ++ [ map (fun _ => EmptyString) header;
                       total_line header
                         (py_sum ws) (py_sum ls) (py_sum bs) ];
                printed :=
                  report output_path (py_sum ws) (py_sum ls) (py_sum bs) |})
  /\ (let rewards := [ candidate "2" "3" "5";
                       candidate_of other_address "1" "1" "0.5" ] in
      process_rows (rt := CPython.runtime) ∅ ∅ rewards
      = Ok {| processed_data := rewards;
              total_waifu_rewards := number "3";
              total_llama_rewards := number "4";
              total_base_tokens := number "5.5" |}
      /\ process_miner_rewards (rt := CPython.runtime) rewards [] [] "out.csv"
         = Ok {| written :=
                   [ [ ADDRESS; WAIFU; LLAMA; BASE ];
                     [ sample_address; "2"; "3"; "5" ];
                     [ ""; ""; ""; "" ];
                     [ "TOTAL"; "2.0"; "3.0"; "5.0" ] ];
                 printed :=
                   [ "Processed data written to out.csv";
                     "Total S2 waifu rewards: 2.0";
                     "Total S2 llama rewards: 3.0";
                     "Total S2 base tokens: 5.0" ] |}).
Proof.
  split; [|by vm_compute].
  intros rt rewards unique items output_path uq ms filtered header
    Huq Hms Hheader Hf Hne.
  destruct (proj1 (filtered_rows_survivors _ _ _ _) Hf) as (rss & Hrss & Hc).
  destruct filtered as [|first rest]; [done|].
  destruct (process_miner_rewards_Ok rewards unique items output_path
              uq ms first rest header Huq Hms Hheader Hf)
    as (ws & ls & bs & Hws & Hls & Hbs & Hrun).
  by exists rss, ws, ls, bs.
Qed.

Lemma totals_recomputed_after_filter_witness :
  exists out,
    process_miner_rewards (rt := CPython.runtime)
      [ candidate "2" "3" "5"; candidate_of other_address "4" "6" "10" ]
      [] [] "out.csv" = Ok out
    /\ last (written out) = Some [ "TOTAL"; "6.0"; "9.0"; "15.0" ].
Proof.
  destruct (proj1 totals_recomputed_after_filter CPython.runtime
              [ candidate "2" "3" "5";
                candidate_of other_address "4" "6" "10" ]
              [] [] "out.csv" ∅ ∅
              [ candidate "2" "3" "5";
                candidate_of other_address "4" "6" "10" ]
              [ ADDRESS; WAIFU; LLAMA; BASE ])
    as (rss & ws & ls & bs & _ & _ & Hws & Hls & Hbs & Hrun);
    [reflexivity | reflexivity | | reflexivity | discriminate |].
  - intros row Hrow. apply elem_of_cons in Hrow as [-> | Hrow]; [done|].
    by apply list_elem_of_singleton in Hrow as ->.
  - eexists. split; [exact Hrun|].
    injection Hws as <-. injection Hls as <-. injection Hbs as <-.
    reflexivity.
Defined.



(** C10. A record whose base-token total is replaced by the remote figure
    carries the text [str] gives that float, a record that passes through
    is the row as it was read, and the row of totals carries the text [str]
    gives the three sums. So a remote integer 80 is written as 80.0 while
    a local 80 that passes through stays 80, though both read back as the
    same number. *)
Theorem overridden_total_is_float_text :
  (forall (rt : PyRuntime) (uq : gset string) (ms : gmap string jobject)
          (row : dict) (st : acc) (a : string) (stats : jobject)
          (csv json w l : float),
     dict_get ADDRESS row = Ok a ->
     is_valid_ethereum_address (lower a) = true ->
     lower a ∉ uq ->
     ms !! lower a = Some stats ->
     float_field BASE row = Ok csv ->
     json_total stats = Ok json ->
     float_field WAIFU row = Ok w ->
     float_field LLAMA row = Ok l ->
     (fge json csv = false ->
      exists r, loop_body uq ms row st = Ok (appended r w l json st)
                /\ dict_get BASE r = Ok (str_of_float json)
                /\ forall k, k <> BASE -> dict_lookup k r = dict_lookup k row)
     /\ (fge json csv = true ->
         loop_body uq ms row st = Ok (appended row w l csv st)))
  /\ (forall (rt : PyRuntime) (uq : gset string) (ms : gmap string jobject)
             (row : dict) (st : acc) (a : string) (csv w l : float),
        dict_get ADDRESS row = Ok a ->
        is_valid_ethereum_address (lower a) = true ->
        lower a ∉ uq ->
        ms !! lower a = None ->
        float_field BASE row = Ok csv ->
        float_field WAIFU row = Ok w ->
        float_field LLAMA row = Ok l ->
        loop_body uq ms row st = Ok (appended row w l csv st))
  /\ (forall (rt : PyRuntime) (output_path : string)
             (first : dict) (rest : list dict) (w l b : float) (out : output),
        write_results output_path (first :: rest) w l b = Ok out ->
        last (written out) = Some (total_line (dict_keys first) w l b))
  /\ (process_miner_rewards (rt := CPython.runtime)
        [ candidate "2" "3" "100"; candidate_of other_address "2" "3" "80" ]
        [] [ remote_record "totalTokens" (JInt 80) ] "out.csv"
      = Ok {| written :=
                [ [ ADDRESS; WAIFU; LLAMA; BASE ];
                  [ sample_address; "2"; "3"; "80.0" ];
                  [ other_address; "2"; "3"; "80" ];
                  [ ""; ""; ""; "" ];
                  [ "TOTAL"; "4.0"; "6.0"; "160.0" ] ];
              printed :=
                [ "Processed data written to out.csv";
                  "Total S2 waifu rewards: 4.0";
                  "Total S2 llama rewards: 6.0";
                  "Total S2 base tokens: 160.0" ] |}
      /\ number "80.0" = number "80").
Proof.
  split; [|split; [|split; [|by vm_compute]]].
  - intros rt uq ms row st a stats csv json w l
      Ha Hvalid Hnew Hms Hcsv Hjson Hw Hl.
    pose proof (loop_body_remote uq ms row st a stats csv json w l
                  Ha Hvalid Hnew Hms Hcsv Hjson Hw Hl) as Hbody.
    split; intros Hge; rewrite Hge in Hbody; [|done].
    exists (dict_set BASE (str_of_float json) row). split; [done|]. split.
    + apply dict_get_Ok. rewrite dict_lookup_set. by case_decide.
    + intros k Hk. rewrite dict_lookup_set. by case_decide.
  - intros rt uq ms row st a csv w l. apply loop_body_local.
  - intros rt output_path first rest w l b out Hout.
    unfold write_results in Hout. inv_bind Hout. inv_bind Hout.
    inv_bind Hout. injection Hout as <-. cbn [written].
    rewrite app_comm_cons, last_app. cbn [last].
    unfold dict_to_list in E1. destruct (forallb _ _); [|done].
    injection E1 as <-. f_equal. apply render_total.
Qed.

Lemma overridden_total_is_float_text_witness :
  exists r,
    loop_body (rt := CPython.runtime) ∅
      {[ sample_address := remote_record "totalTokens" (JInt 80) ]}
      (candidate "2" "3" "100") initial
    = Ok (appended r (number "2") (number "3") (number "80") initial)
    /\ dict_get BASE r = Ok "80.0".
Proof.
  destruct (proj1 overridden_total_is_float_text CPython.runtime ∅
              {[ sample_address := remote_record "totalTokens" (JInt 80) ]}
              (candidate "2" "3" "100") initial sample_address
              (remote_record "totalTokens" (JInt 80))
              (number "100") (number "80") (number "2") (number "3"))
    as [Hover _]; [reflexivity | reflexivity | set_solver
                  | reflexivity | reflexivity | reflexivity
                  | reflexivity | reflexivity |].
  destruct (Hover eq_refl) as (r & Hbody & Hbase & _).
  exists r. split; [exact Hbody|exact Hbase].
Defined.

End OutputClaims.

(** ** The exclusion set *)

Section ExclusionSet.
Import CollectUniqueAddresses.

Lemma elem_of_lowered (x : string) (cells : list cell) :
  x ∈ lowered cells <-> exists s, CStr s ∈ cells /\ x = lower s.
Proof.
  induction cells as [|c cells IH]; cbn.
  - rewrite elem_of_nil. split; [done|]. intros (s & Hs & _).
    by apply elem_of_nil in Hs.
  - destruct c as [s| | |]; rewrite ?elem_of_cons, IH;
      setoid_rewrite elem_of_cons; naive_solver.
Qed.

Lemma first_piece_no_comma (s : string) :
  contains_comma s = false -> first_piece s = s.
Proof.
  induction s as [|c s IH]; cbn; [done|].
  case_decide; cbn; [done|]. intros Hs. by rewrite IH.
Qed.

Lemma any_contains_comma_false (col : list cell) (s : string) :
  any_contains_comma col = false -> CStr s ∈ col -> contains_comma s = false.
Proof.
  unfold any_contains_comma. intros Hany Hs.
  destruct (contains_comma s) eqn:Hc; [|done].
  assert (existsb (fun c => match c with
                            | CStr s => contains_comma s
                            | _ => false
                            end) col = true) as Ht; [|congruence].
  apply existsb_exists. exists (CStr s). split; [|done].
  by apply list_elem_of_In.
Qed.

Lemma dtype_object_false (col : list cell) (s : string) :
  dtype_object col = false -> CStr s ∉ col.
Proof.
  unfold dtype_object. intros Hd Hs.
  assert (existsb is_str col = true) as Ht; [|congruence].
  apply existsb_exists. exists (CStr s). split; [|done].
  by apply list_elem_of_In.
Qed.

(** Of every text cell of the first column, a cluster file contributes the
    part before the first comma. *)
Lemma elem_of_sybil_addresses (x : string) (df : DataFrame) :
  x ∈ lowered (sybil_addresses df) <->
  exists s, CStr s ∈ column_at 0 df /\ x = lower (first_piece s).
Proof.
  rewrite elem_of_lowered. unfold sybil_addresses.
  destruct (dtype_object (column_at 0 df)) eqn:Hd; cbn [andb].
  - destruct (any_contains_comma (column_at 0 df)) eqn:Hc.
    + unfold split_first. split.
      * intros (t & Ht & ->). apply list_elem_of_fmap in Ht as (c & Hc' & Hin).
        destruct c as [s| | |]; try done. injection Hc' as ->. eauto.
      * intros (s & Hs & ->). exists (first_piece s). split; [|done].
        apply list_elem_of_fmap. exists (CStr s). done.
    + split; intros (s & Hs & ->); exists s;
        by rewrite (first_piece_no_comma s)
          by (by eapply any_contains_comma_false).
  - split; intros (s & Hs & _); by apply dtype_object_false in Hs.
Qed.

Lemma elem_of_sybil_files (x : string) (files : list DataFrame)
    (unique_addresses : gset string) :
  x ∈ fold_left add_sybil_file files unique_addresses <->
  x ∈ unique_addresses
  \/ exists df s, df ∈ files /\ (0 < length (columns df))%nat
                  /\ CStr s ∈ column_at 0 df /\ x = lower (first_piece s).
Proof.
  revert unique_addresses.
  induction files as [|df files IH]; intros unique_addresses; cbn.
  - split; [by left|]. intros [?|(df & s & Hdf & _)]; [done|].
    by apply elem_of_nil in Hdf.
  - rewrite IH. unfold add_sybil_file.
    destruct (0 <? length (columns df))%nat eqn:Hcols.
    + apply Nat.ltb_lt in Hcols.
      rewrite elem_of_union, elem_of_list_to_set, elem_of_sybil_addresses.
      setoid_rewrite elem_of_cons. naive_solver.
    + apply Nat.ltb_ge in Hcols. setoid_rewrite elem_of_cons.
      split; [naive_solver|].
      intros [?|(df' & s & [-> | Hdf] & Hlen & Hrest)]; [by left|lia|].
      right. by exists df', s.
Qed.

(** C7, as the code has it. The set [main] saves holds, lower-cased, the
    part before the first comma of every text cell of the first column of
    every cluster file, and every text cell of the [Address] column of the
    rewards file; the later comma-separated parts of a cell are dropped.
    The set does not depend on the order of the cluster files. *)
Theorem main_first_pieces_any_order :
  (forall (files : list DataFrame) (rewards : rewards_file) (x : string),
     x ∈ main files rewards <->
     (exists df s, df ∈ files /\ (0 < length (columns df))%nat
                   /\ CStr s ∈ column_at 0 df
                   /\ x = lower (first_piece s))
     \/ (exists df i s, rewards = Loaded df
                        /\ index_of "Address" (columns df) = Some i
                        /\ CStr s ∈ column_at i df /\ x = lower s))
  /\ (forall (files files' : list DataFrame) (rewards : rewards_file),
        files ≡ₚ files' -> main files rewards = main files' rewards).
Proof.
  assert (forall files rewards x,
     x ∈ main files rewards <->
     (exists df s, df ∈ files /\ (0 < length (columns df))%nat
                   /\ CStr s ∈ column_at 0 df
                   /\ x = lower (first_piece s))
     \/ (exists df i s, rewards = Loaded df
                        /\ index_of "Address" (columns df) = Some i
                        /\ CStr s ∈ column_at i df /\ x = lower s))
    as Hmain.
  { intros files rewards x. unfold main, add_rewards_file.
    destruct rewards as [| |df].
    - rewrite elem_of_sybil_files. rewrite elem_of_empty. naive_solver.
    - rewrite elem_of_sybil_files. rewrite elem_of_empty. naive_solver.
    - destruct (index_of "Address" (columns df)) as [i|] eqn:Hi.
      + rewrite elem_of_union, elem_of_list_to_set, elem_of_lowered,
          elem_of_sybil_files, elem_of_empty.
        split.
        * intros [[[]|?]|(s & Hs & ->)]; [by left|].
          right. by exists df, i, s.
        * intros [?|(df' & i' & s & [= <-] & Hi' & Hs & ->)]; [by left; right|].
          right. exists s. split; [|done]. congruence.
      + rewrite elem_of_sybil_files, elem_of_empty. split.
        * intros [[]|?]. by left.
        * intros [?|(df' & i' & s & [= <-] & Hi' & _)]; [by right|].
          congruence. }
  split; [exact Hmain|].
  intros files files' rewards Hperm. apply set_eq. intros x.
  rewrite !Hmain. by setoid_rewrite Hperm.
Qed.

End ExclusionSet.

(** ** Worked examples of the exclusion set *)

Section ExclusionSetExamples.
Import CollectUniqueAddresses.

(** C7 as stated fails: of two comma-joined addresses only the first is
    inserted, whether the line was read as one cell or as two columns. *)
Lemma main_drops_later_pieces :
  main [ joined_file ] NotFound = {[ sample_address ]}
  /\ (other_address ∉ main [ joined_file ] NotFound)
  /\ main [ two_columns_file ] NotFound = {[ sample_address ]}.
Proof.
  assert (main [ joined_file ] NotFound = {[ sample_address ]}) as Hj
    by (by vm_compute).
  split; [exact Hj|]. split; [|by vm_compute].
  rewrite Hj. by intros [=]%elem_of_singleton.
Qed.

Lemma main_first_pieces_any_order_witness :
  main [ joined_file; other_file ] NotFound
  = main [ other_file; joined_file ] NotFound.
Proof.
  apply (proj2 main_first_pieces_any_order). apply Permutation_swap.
Defined.

End ExclusionSetExamples.

(** ** The early filter *)

Section EarlyFilter.
Import FilterCsv.

Lemma mask_rows_filter (df : DataFrame) (labels1 labels2 : list string)
    (rows : list (list cell)) (c1 c2 : list bool) :
  Forall2 (fun row b =>
             (let! cells := select labels1 df row in
              Ok (existsb cell_truthy cells)) = Ok b) rows c1 ->
  Forall2 (fun row b =>
             (let! cells := select labels2 df row in
              Ok (existsb cell_truthy cells)) = Ok b) rows c2 ->
  mask_rows rows (zip_with andb c1 c2) =
  List.filter
    (fun row =>
       match select labels1 df row, select labels2 df row with
       | Ok a, Ok b => existsb cell_truthy a && existsb cell_truthy b
       | _, _ => false
       end) rows.
Proof.
  intros H1. revert c2. induction H1 as [|row b1 rows c1 Hb1 _ IH];
    intros c2 H2; inversion H2 as [|? b2 ? c2' Hb2 H2']; subst; [done|].
  cbn. inv_bind Hb1. inv_bind Hb2. rewrite E, E0.
  injection Hb1 as ->. injection Hb2 as ->. rewrite (IH _ H2').
  by destruct (b1 && b2).
Qed.

Lemma filter_airdrop_data_kept (df df' : DataFrame) :
  filter_airdrop_data df = Ok df' ->
  columns df' = columns df /\ data df' = List.filter (kept df) (data df).
Proof.
  unfold filter_airdrop_data, any_axis1. intros Hf.
  inv_bind Hf. inv_bind Hf. injection Hf as <-. split; [done|].
  apply map_result_Ok_lookup in E, E0. cbn [data].
  by rewrite (mask_rows_filter df _ _ _ _ _ E E0).
Qed.

End EarlyFilter.



Section Negligible.
Context {rt : PyRuntime}.
Import FilterAndUpdateRewards.



End Negligible.

(** ** The early filter before reconciliation *)

Section ShortCircuit.
Import FilterAndUpdateRewards.


End ShortCircuit.

(** ** Worked examples of the early filter, in CPython *)

Section ShortCircuitExamples.
Import FilterAndUpdateRewards.
#[local] Existing Instance CPython.runtime.



End ShortCircuitExamples.

(** * Further properties *)

(** ** The validator and letter case *)

Lemma lower_char_idem (c : ascii) : lower_char (lower_char c) = lower_char c.
Proof. by destruct c as [[] [] [] [] [] [] [] []]. Qed.

Lemma lower_idem (s : string) : lower (lower s) = lower s.
Proof.
  induction s as [|c s IH]; cbn; [done|]. by rewrite lower_char_idem, IH.
Qed.

Lemma lower_app (s t : string) : lower (s +:+ t) = lower s +:+ lower t.
Proof. induction s as [|c s IH]; cbn; [done|]. by rewrite IH. Qed.

Lemma length_lower (s : string) : String.length (lower s) = String.length s.
Proof. induction s as [|c s IH]; cbn; [done|]. by rewrite IH. Qed.

Lemma is_hex_lower_char (c : ascii) :
  is_hex c = true -> is_hex (lower_char c) = true.
Proof. by destruct c as [[] [] [] [] [] [] [] []]. Qed.

Lemma all_hex_lower (s : string) :
  all_chars is_hex s = true -> all_chars is_hex (lower s) = true.
Proof.
  induction s as [|c s IH]; cbn; [done|].
  rewrite !andb_true_iff. intros [Hc Hs]. split; [|by apply IH].
  by apply is_hex_lower_char.
Qed.

Section ValidatorProperties.
Import FilterAndUpdateRewards.

(** X1. [is_valid_ethereum_address] accepts exactly the well-formed
    addresses and the well-formed addresses followed by one newline. *)
Theorem is_valid_ethereum_address_accepts (a : string) :
  is_valid_ethereum_address a = true <->
  well_formed_address a = true
  \/ exists b, a = b +:+ nl /\ well_formed_address b = true.
Proof.
  rewrite is_valid_ethereum_address_spec. split.
  - intros (h & Hlen & Hhex & [-> | ->]).
    + left. apply well_formed_address_spec. by exists h.
    + right. exists ("0x" +:+ h). split; [done|].
      apply well_formed_address_spec. by exists h.
  - intros [Hw | (b & -> & Hw)];
      apply well_formed_address_spec in Hw as (h & -> & Hlen & Hhex);
      exists h; auto.
Qed.

(** X2. Lower-casing keeps an address valid, and can make an invalid one
    valid: the validator requires a small [x] in the prefix, and the loop
    validates the lower-cased address, so that Step 1 lets an address
    written with [0X] through. *)
Theorem is_valid_ethereum_address_lower :
  (forall a, is_valid_ethereum_address a = true ->
             is_valid_ethereum_address (lower a) = true)
  /\ is_valid_ethereum_address "0XAAAAAAAAAAAAAAAAAAAAAAAAAAAAAAAAAAAAAAAA"
     = false
  /\ is_valid_ethereum_address
       (lower "0XAAAAAAAAAAAAAAAAAAAAAAAAAAAAAAAAAAAAAAAA") = true.
Proof.
  split; [|by vm_compute]. intros a.
  rewrite !is_valid_ethereum_address_spec.
  intros (h & Hlen & Hhex & Ha). exists (lower h).
  split; [by rewrite length_lower|]. split; [by apply all_hex_lower|].
  destruct Ha as [-> | ->]; rewrite !lower_app; auto.
Qed.

Lemma is_valid_ethereum_address_lower_witness :
  is_valid_ethereum_address
    (lower "0xAbCdEf0123456789aBcDeF0123456789AbCdEf01") = true.
Proof.
  apply (proj1 is_valid_ethereum_address_lower). reflexivity.
Defined.

End ValidatorProperties.

(** ** The two loaders *)

Section Loaders.
Import FilterAndUpdateRewards.

Lemma load_unique_addresses_from (rows : list dict) (acc : gset string) :
  (forall row, row ∈ rows -> is_Some (dict_lookup "address" row)) ->
  exists s,
    for_each
      (fun row (unique_addresses : gset string) =>
         let! a := dict_get "address" row in
         Ok (unique_addresses ∪ {[ lower a ]}))
      rows acc = Ok s
    /\ forall x, x ∈ s <->
         x ∈ acc
         \/ exists row v, row ∈ rows /\ dict_lookup "address" row = Some v
                          /\ x = lower v.
Proof.
  revert acc. induction rows as [|row rows IH]; intros acc Hkeys; cbn.
  - exists acc. split; [done|]. intros x. split; [by left|].
    intros [?|(row & v & Hrow & _)]; [done|by apply elem_of_nil in Hrow].
  - destruct (Hkeys row) as [v Hv]; [by left|].
    unfold dict_get at 1. rewrite Hv. cbn [bind].
    destruct (IH (acc ∪ {[ lower v ]})) as (s & -> & Hs).
    { intros r Hr. apply Hkeys. by right. }
    exists s. split; [done|]. intros x. rewrite Hs, elem_of_union,
      elem_of_singleton. setoid_rewrite elem_of_cons. split.
    + intros [[?| ->]|(r & w & Hr & Hw & ->)]; [by left|right..].
      * exists row, v. auto.
      * exists r, w. auto.
    + intros [?|(r & w & [-> | Hr] & Hw & ->)]; [by left; left| |].
      * left; right. congruence.
      * right. by exists r, w.
Qed.

Lemma load_unique_addresses_raises (rows : list dict) (acc : gset string)
    (row : dict) :
  row ∈ rows -> dict_lookup "address" row = None ->
  for_each
    (fun row (unique_addresses : gset string) =>
       let! a := dict_get "address" row in
       Ok (unique_addresses ∪ {[ lower a ]}))
    rows acc = Raise (KeyError "address").
Proof.
  revert acc. induction rows as [|r rows IH]; intros acc Hrow Hnone.
  - by apply elem_of_nil in Hrow.
  - cbn. unfold dict_get at 1.
    destruct (dict_lookup "address" r) as [v|] eqn:Hr; cbn [bind]; [|done].
    apply elem_of_cons in Hrow as [-> | Hrow]; [congruence|]. by apply IH.
Qed.

(** X3. [load_unique_addresses] returns the set of the lower-cased
    [address] fields of the rows when every row has the field, the empty
    set for no rows; it raises [KeyError] for [address] as soon as one row
    lacks it. *)
Theorem load_unique_addresses_spec (rows : list dict) :
  ((forall row, row ∈ rows -> is_Some (dict_lookup "address" row)) ->
   exists s,
     load_unique_addresses rows = Ok s
     /\ forall x, x ∈ s <->
          exists row v, row ∈ rows /\ dict_lookup "address" row = Some v
                        /\ x = lower v)
  /\ (forall row, row ∈ rows -> dict_lookup "address" row = None ->
        load_unique_addresses rows = Raise (KeyError "address")).
Proof.
  split.
  - intros Hkeys.
    destruct (load_unique_addresses_from rows ∅ Hkeys) as (s & Hs & Hmem).
    exists s. split; [exact Hs|]. intros x. rewrite Hmem, elem_of_empty.
    naive_solver.
  - intros row. apply load_unique_addresses_raises.
Qed.

Lemma load_unique_addresses_spec_witness :
  exists s,
    load_unique_addresses [ [ ("address", "0xAB") ]; [ ("address", "0xab") ] ]
    = Ok s
    /\ "0xab" ∈ s.
Proof.
  destruct (proj1 (load_unique_addresses_spec
                     [ [ ("address", "0xAB") ]; [ ("address", "0xab") ] ]))
    as (s & Hs & Hmem).
  - intros row Hrow. apply elem_of_cons in Hrow as [-> | Hrow]; [by eexists|].
    apply list_elem_of_singleton in Hrow as ->. by eexists.
  - exists s. split; [exact Hs|]. apply Hmem.
    exists [ ("address", "0xAB") ], "0xAB". split; [by left|]. by split.
Defined.

Lemma load_miner_stats_from (items : list jobject)
    (acc : gmap string jobject) :
  (forall item, item ∈ items -> exists a, item_address item = Ok a) ->
  exists ms,
    for_each
      (fun item (stats_dict : gmap string jobject) =>
         let! a := item_address item in Ok (<[ a := item ]> stats_dict))
      items acc = Ok ms
    /\ forall a item,
         ms !! a = Some item <->
         (exists pre post,
            items = pre ++ item :: post /\ item_address item = Ok a
            /\ forall it, it ∈ post -> item_address it <> Ok a)
         \/ ((forall it, it ∈ items -> item_address it <> Ok a)
             /\ acc !! a = Some item).
Proof.
  revert acc. induction items as [|x items IH]; intros acc Haddr; cbn.
  - exists acc. split; [done|]. intros a item. split.
    + intros Hacc. right. split; [|done]. intros it Hit.
      by apply elem_of_nil in Hit.
    + intros [(pre & post & Hnil & _)|[_ ?]]; [|done].
      by destruct pre.
  - destruct (Haddr x) as [ax Hax]; [by left|]. rewrite Hax. cbn [bind].
    destruct (IH (<[ ax := x ]> acc)) as (ms & -> & Hms).
    { intros it Hit. apply Haddr. by right. }
    exists ms. split; [done|]. intros a item. rewrite Hms. split.
    + intros [(pre & post & -> & Hitem & Hpost)|[Hnone Hacc]].
      * left. by exists (x :: pre), post.
      * destruct (decide (ax = a)) as [->|Hne].
        -- rewrite lookup_insert_eq in Hacc. injection Hacc as <-.
           left. by exists [], items.
        -- rewrite lookup_insert_ne in Hacc by done. right. split; [|done].
           intros it [-> | Hit]%elem_of_cons; [congruence|by apply Hnone].
    + intros [(pre & post & Heq & Hitem & Hpost)|[Hnone Hacc]].
      * destruct pre as [|y pre]; cbn in Heq; injection Heq as -> ->.
        -- right. split; [done|]. rewrite Hax in Hitem.
           injection Hitem as ->. by rewrite lookup_insert_eq.
        -- left. by exists pre, post.
      * right. split; [intros it Hit; apply Hnone; by right|].
        rewrite lookup_insert_ne; [done|]. intros ->.
        by apply (Hnone x); [left|].
Qed.

(** X4. When every item has a text address, [load_miner_stats] maps an
    address to the last item of the list that has it, lower-cased: a later
    item replaces an earlier one, and the keys of the mapping are in lower
    case. *)
Theorem load_miner_stats_last_wins (items : list jobject) :
  (forall item, item ∈ items -> exists a, item_address item = Ok a) ->
  exists ms,
    load_miner_stats items = Ok ms
    /\ (forall a item,
          ms !! a = Some item <->
          exists pre post,
            items = pre ++ item :: post /\ item_address item = Ok a
            /\ forall it, it ∈ post -> item_address it <> Ok a)
    /\ (forall a item, ms !! a = Some item -> lower a = a).
Proof.
  intros Haddr.
  destruct (load_miner_stats_from items ∅ Haddr) as (ms & Hms & Hlook).
  assert (forall a item,
            ms !! a = Some item <->
            exists pre post,
              items = pre ++ item :: post /\ item_address item = Ok a
              /\ forall it, it ∈ post -> item_address it <> Ok a) as Hlast.
  { intros a item. rewrite Hlook, lookup_empty. naive_solver. }
  exists ms. split; [exact Hms|]. split; [exact Hlast|].
  intros a item Hitem. apply Hlast in Hitem as (_ & _ & _ & Hitem & _).
  unfold item_address in Hitem.
  destruct (item !! "address") as [[]|]; try done.
  injection Hitem as <-. apply lower_idem.
Qed.

Lemma load_miner_stats_last_wins_witness :
  exists ms,
    load_miner_stats
      [ remote_record "totalTokens" (JInt 1);
        {[ "address" := JStr "0xAAAAAAAAAAAAAAAAAAAAAAAAAAAAAAAAAAAAAAAA";
           "totalTokens" := JInt 2 ]} ] = Ok ms
    /\ ms !! sample_address
       = Some {[ "address" := JStr "0xAAAAAAAAAAAAAAAAAAAAAAAAAAAAAAAAAAAAAAAA";
                 "totalTokens" := JInt 2 ]}.
Proof.
  destruct (load_miner_stats_last_wins
              [ remote_record "totalTokens" (JInt 1);
                {[ "address" :=
                     JStr "0xAAAAAAAAAAAAAAAAAAAAAAAAAAAAAAAAAAAAAAAA";
                   "totalTokens" := JInt 2 ]} ])
    as (ms & Hms & Hlast & _).
  - intros item Hitem. apply elem_of_cons in Hitem as [-> | Hitem].
    + by exists sample_address.
    + apply list_elem_of_singleton in Hitem as ->. by exists sample_address.
  - exists ms. split; [exact Hms|]. apply Hlast.
    exists [ remote_record "totalTokens" (JInt 1) ], [].
    split; [done|]. split; [done|]. intros it Hit.
    by apply elem_of_nil in Hit.
Defined.

End Loaders.

(** ** The run over the rewards file *)

Lemma map_result_app {A B} (f : A -> result B) (xs ys : list A) :
  map_result f (xs ++ ys) =
  let! a := map_result f xs in let! b := map_result f ys in Ok (a ++ b).
Proof.
  induction xs as [|x xs IH]; cbn.
  - by destruct (map_result f ys).
  - destruct (f x); cbn; [|done]. rewrite IH.
    destruct (map_result f xs); cbn; [|done].
    by destruct (map_result f ys).
Qed.

Lemma map_result_singletons {A} (f : A -> result (list A)) (xs : list A) :
  (forall x, x ∈ xs -> f x = Ok [x]) ->
  exists rss, map_result f xs = Ok rss /\ concat rss = xs.
Proof.
  induction xs as [|x xs IH]; intros Hf; cbn; [by exists []|].
  rewrite Hf by (by left). destruct IH as (rss & -> & Hc).
  { intros y Hy. apply Hf. by right. }
  exists ([x] :: rss). cbn. by rewrite Hc.
Qed.

Section RunProperties.
Context {rt : PyRuntime}.
Import FilterAndUpdateRewards.

(** When and what the loop body appends. *)
Lemma step_Some_iff (uq : gset string) (ms : gmap string jobject)
    (row r : dict) (w l b : float) :
  step uq ms row = Ok (Some (r, w, l, b)) <->
  exists a,
    dict_get ADDRESS row = Ok a
    /\ is_valid_ethereum_address (lower a) = true
    /\ (lower a ∉ uq)
    /\ float_field WAIFU row = Ok w
    /\ float_field LLAMA row = Ok l
    /\ ((ms !! lower a = None /\ float_field BASE row = Ok b /\ r = row)
        \/ exists stats csv json,
             ms !! lower a = Some stats
             /\ float_field BASE row = Ok csv
             /\ json_total stats = Ok json
             /\ ((fge json csv = true /\ r = row /\ b = csv)
                 \/ (fge json csv = false
                     /\ r = dict_set BASE (str_of_float json) row
                     /\ b = json))).
Proof.
  unfold step. split.
  - intros Hs. inv_bind Hs. exists x. split; [done|].
    destruct (is_valid_ethereum_address (lower x)); [|done]. cbn [negb] in Hs.
    case_decide; [done|]. split; [done|]. split; [done|].
    destruct (ms !! lower x) as [stats|].
    + inv_bind Hs. inv_bind Hs. inv_bind Hs. inv_bind Hs.
      destruct (fge x1 x0) eqn:Hge; injection Hs as <- <- <- <-;
        (split; [done|]); (split; [done|]); right; exists stats, x0, x1;
        auto 10.
    + inv_bind Hs. inv_bind Hs. inv_bind Hs. injection Hs as <- <- <- <-.
      split; [done|]. split; [done|]. by left.
  - intros (a & -> & Hvalid & Hnew & Hw & Hl & Hcases). cbn [bind].
    rewrite Hvalid. cbn [negb]. case_decide; [done|].
    destruct Hcases as [(-> & Hb & ->)
      | (stats & csv & json & -> & Hcsv & Hjson & Hbranch)].
    + by rewrite Hw, Hl, Hb.
    + rewrite Hcsv; cbn [bind]. rewrite Hjson; cbn [bind].
      rewrite Hw, Hl; cbn [bind].
      by destruct Hbranch as [(-> & -> & ->) | (-> & -> & ->)].
Qed.

Lemma step_None (uq : gset string) (ms : gmap string jobject) (row : dict)
    (a : string) :
  dict_get ADDRESS row = Ok a ->
  is_valid_ethereum_address (lower a) = false \/ lower a ∈ uq ->
  step uq ms row = Ok None.
Proof.
  intros Ha Hskip. unfold step. rewrite Ha. cbn [bind].
  destruct (is_valid_ethereum_address (lower a)); cbn [negb]; [|done].
  case_decide; [done|]. by destruct Hskip.
Qed.

Lemma dict_get_set_other (k k' v : string) (d : dict) :
  k <> k' -> dict_get k' (dict_set k v d) = dict_get k' d.
Proof.
  intros Hk. unfold dict_get. rewrite dict_lookup_set. by case_decide.
Qed.

(** X5. Every record that survives comes from a row of the rewards file
    and passes the three filters: its address, lower-cased, is accepted by
    the validator and is not in the exclusion set, and its base-token total
    is at least 1. The run never outputs an excluded or a malformed
    address. *)
Theorem survivors_pass_three_filters (uq : gset string)
    (ms : gmap string jobject) (rewards filtered : list dict) (r : dict) :
  filtered_rows uq ms rewards = Ok filtered ->
  r ∈ filtered ->
  exists row a x,
    row ∈ rewards
    /\ dict_get ADDRESS row = Ok a
    /\ dict_get ADDRESS r = Ok a
    /\ is_valid_ethereum_address (lower a) = true
    /\ (lower a ∉ uq)
    /\ float_field BASE r = Ok x
    /\ fge x float_one = true.
Proof.
  intros Hf Hr.
  destruct (filtered_rows_inv _ _ _ _ _ Hf Hr)
    as (row & w & l & b & x & Hrow & Hstep & Hx & Hge).
  apply step_Some_iff in Hstep
    as (a & Ha & Hvalid & Hnew & _ & _ & Hcases).
  exists row, a, x. repeat split; try done.
  destruct Hcases as [(_ & _ & ->)
    | (stats & csv & json & _ & _ & _ & [(_ & -> & _) | (_ & -> & _)])];
    try done.
  by rewrite dict_get_set_other.
Qed.

End RunProperties.

Lemma survivors_pass_three_filters_witness :
  exists row a x,
    row ∈ [ candidate "2" "3" "5" ]
    /\ dict_get FilterAndUpdateRewards.ADDRESS row = Ok a
    /\ dict_get FilterAndUpdateRewards.ADDRESS (candidate "2" "3" "5") = Ok a
    /\ FilterAndUpdateRewards.is_valid_ethereum_address (lower a) = true
    /\ (lower a ∉ (∅ : gset string))
    /\ FilterAndUpdateRewards.float_field (rt := CPython.runtime)
         FilterAndUpdateRewards.BASE (candidate "2" "3" "5") = Ok x
    /\ fge x float_one = true.
Proof.
  apply (@survivors_pass_three_filters CPython.runtime ∅ ∅
           [ candidate "2" "3" "5" ] [ candidate "2" "3" "5" ]);
    [reflexivity|by left].
Defined.

Section RunComposition.
Context {rt : PyRuntime}.
Import FilterAndUpdateRewards.

Lemma survivors_elem (uq : gset string) (ms : gmap string jobject)
    (rewards filtered : list dict) (row : dict) :
  filtered_rows uq ms rewards = Ok filtered -> row ∈ rewards ->
  exists s, survivors uq ms row = Ok s /\ forall r, r ∈ s -> r ∈ filtered.
Proof.
  intros Hf Hrow. apply filtered_rows_survivors in Hf as (rss & Hrss & ->).
  apply list_elem_of_lookup in Hrow as [i Hi].
  destruct (Forall2_lookup_l _ _ _ _ _ (map_result_Ok_lookup _ _ _ Hrss) Hi)
    as (s & Hs & Hsurv).
  exists s. split; [done|]. intros r Hr. apply elem_of_concat.
  exists s. split; [|done]. apply list_elem_of_lookup. eauto.
Qed.

(** X6. In a run that completes, a candidate that passes Steps 1 and 2,
    has a local total of at least 1 and either no remote record or one
    whose total is greater than or equal to the local total, is among the
    surviving records, unchanged. *)
Theorem eligible_candidate_survives (uq : gset string)
    (ms : gmap string jobject) (rewards filtered : list dict) (row : dict)
    (a : string) (x : float) :
  filtered_rows uq ms rewards = Ok filtered ->
  row ∈ rewards ->
  dict_get ADDRESS row = Ok a ->
  is_valid_ethereum_address (lower a) = true ->
  lower a ∉ uq ->
  float_field BASE row = Ok x ->
  fge x float_one = true ->
  (ms !! lower a = None
   \/ exists stats json, ms !! lower a = Some stats
                         /\ json_total stats = Ok json
                         /\ fge json x = true) ->
  row ∈ filtered.
Proof.
  intros Hf Hrow Ha Hvalid Hnew Hx Hge Hremote.
  destruct (survivors_elem _ _ _ _ _ Hf Hrow) as (s & Hs & Hsub).
  apply Hsub. unfold survivors in Hs. inv_bind Hs.
  assert (exists w l, x0 = Some (row, w, l, x)) as (w & l & ->).
  { unfold step in E. rewrite Ha in E. cbn [bind] in E.
    rewrite Hvalid in E. cbn [negb] in E. case_decide; [done|].
    destruct Hremote as [Hms | (stats & json & Hms & Hjson & Hjx)];
      rewrite Hms in E.
    - inv_bind E. inv_bind E. rewrite Hx in E. injection E as <-. eauto.
    - rewrite Hx in E. cbn [bind] in E. rewrite Hjson in E. cbn [bind] in E.
      rewrite Hjx in E. inv_bind E. inv_bind E. injection E as <-. eauto. }
  cbn in Hs. rewrite Hx in Hs. cbn in Hs. rewrite Hge in Hs.
  injection Hs as <-. by left.
Qed.

(** X7. The run treats each row on its own: the surviving records of two
    lists of rows put end to end are those of the first followed by those
    of the second. So no record is merged with or dropped because of
    another, and two rows with the same address both survive. *)
Theorem filtered_rows_app (uq : gset string) (ms : gmap string jobject)
    (xs ys filtered : list dict) :
  filtered_rows uq ms (xs ++ ys) = Ok filtered <->
  exists a b, filtered_rows uq ms xs = Ok a /\ filtered_rows uq ms ys = Ok b
              /\ filtered = a ++ b.
Proof.
  rewrite filtered_rows_survivors, map_result_app. split.
  - intros (rss & Hrss & ->). inv_bind Hrss. inv_bind Hrss.
    injection Hrss as <-. exists (concat x), (concat x0).
    split; [apply filtered_rows_survivors; eauto|].
    split; [apply filtered_rows_survivors; eauto|]. apply concat_app.
  - intros (a & b & Ha & Hb & ->).
    apply filtered_rows_survivors in Ha as (ra & -> & ->).
    apply filtered_rows_survivors in Hb as (rb & -> & ->).
    exists (ra ++ rb). split; [done|]. by rewrite concat_app.
Qed.

(** X8. A row that Step 1 or Step 2 skips has no effect whatever on the
    run: with or without it the run writes and prints the same, or raises
    the same exception. Its amounts are not read, so that a skipped row
    with unreadable amounts does not abort the run. *)
Theorem skipped_row_has_no_effect (pre post unique : list dict)
    (items : list jobject) (output_path : string) (uq : gset string)
    (row : dict) (a : string) :
  load_unique_addresses unique = Ok uq ->
  dict_get ADDRESS row = Ok a ->
  is_valid_ethereum_address (lower a) = false \/ lower a ∈ uq ->
  process_miner_rewards (pre ++ row :: post) unique items output_path =
  process_miner_rewards (pre ++ post) unique items output_path.
Proof.
  intros Huq Ha Hskip. unfold process_miner_rewards. rewrite Huq.
  cbn [bind]. destruct (load_miner_stats items) as [ms|]; cbn [bind]; [|done].
  replace (filtered_rows uq ms (pre ++ row :: post))
    with (filtered_rows uq ms (pre ++ post)); [done|].
  unfold filtered_rows, process_rows. rewrite !for_each_app.
  destruct (for_each _ pre initial) as [st|]; cbn [bind for_each]; [|done].
  by rewrite loop_body_step, (step_None _ _ _ a).
Qed.

(** X9. The table a run writes is rectangular: every record written, the
    header, the blank row and the row of totals included, has as many
    fields as the header; and the table has three records more than there
    are surviving records. *)
Theorem written_table_is_rectangular (output_path : string)
    (first : dict) (rest : list dict) (w l b : float) (out : output) :
  write_results output_path (first :: rest) w l b = Ok out ->
  Forall (fun line => length line = length (dict_keys first)) (written out)
  /\ length (written out) = (length (first :: rest) + 3)%nat.
Proof.
  unfold write_results. intros Hout. inv_bind Hout. inv_bind Hout.
  inv_bind Hout. injection Hout as <-. cbn [written].
  assert (forall d line, dict_to_list (dict_keys first) d = Ok line ->
            length line = length (dict_keys first)) as Hlen.
  { intros d line. unfold dict_to_list. destruct (forallb _ _); [|done].
    intros [= <-]. apply length_map. }
  apply map_result_Ok_lookup in E. split.
  - constructor; [done|]. apply Forall_app. split.
    + apply Forall_forall. intros line Hline.
      apply list_elem_of_lookup in Hline as [i Hi].
      destruct (Forall2_lookup_r _ _ _ _ _ E Hi) as (d & _ & Hd). eauto.
    + repeat constructor; eauto.
  - cbn [length]. rewrite length_app. cbn [length].
    apply Forall2_length in E. cbn [length] in E. lia.
Qed.

End RunComposition.

Lemma eligible_candidate_survives_witness :
  candidate "2" "3" "5"
  ∈ [ candidate "2" "3" "5"; candidate_of other_address "1" "1" "7" ].
Proof.
  apply (@eligible_candidate_survives CPython.runtime ∅
           {[ sample_address := remote_record "totalTokens" (JInt 9) ]}
           [ candidate "2" "3" "5"; candidate "2" "3" "0.5";
             candidate_of other_address "1" "1" "7" ]
           _ (candidate "2" "3" "5") sample_address (number "5"));
    [reflexivity | by left | reflexivity | reflexivity | set_solver
    | reflexivity | reflexivity |].
  right. exists (remote_record "totalTokens" (JInt 9)), (number "9").
  by split.
Defined.

Lemma filtered_rows_app_witness :
  exists a b,
    FilterAndUpdateRewards.filtered_rows (rt := CPython.runtime) ∅ ∅
      [ candidate "2" "3" "5" ] = Ok a
    /\ FilterAndUpdateRewards.filtered_rows (rt := CPython.runtime) ∅ ∅
         [ candidate "2" "3" "5" ] = Ok b
    /\ [ candidate "2" "3" "5"; candidate "2" "3" "5" ] = a ++ b.
Proof.
  apply (proj1 (@filtered_rows_app CPython.runtime ∅ ∅
                  [ candidate "2" "3" "5" ] [ candidate "2" "3" "5" ]
                  [ candidate "2" "3" "5"; candidate "2" "3" "5" ])).
  reflexivity.
Defined.

Lemma skipped_row_has_no_effect_witness :
  FilterAndUpdateRewards.process_miner_rewards (rt := CPython.runtime)
    ([ candidate "2" "3" "5" ]
     ++ candidate_of other_address "no number" "" "?" :: [])
    [ [ ("address", "0xBBBBBBBBBBBBBBBBBBBBBBBBBBBBBBBBBBBBBBBB") ] ] []
    "out.csv"
  = FilterAndUpdateRewards.process_miner_rewards (rt := CPython.runtime)
      ([ candidate "2" "3" "5" ] ++ [])
      [ [ ("address", "0xBBBBBBBBBBBBBBBBBBBBBBBBBBBBBBBBBBBBBBBB") ] ] []
      "out.csv".
Proof.
  apply (@skipped_row_has_no_effect CPython.runtime _ _ _ _ _
           {[ other_address ]} _ other_address);
    [reflexivity | reflexivity | right; set_solver].
Defined.

Lemma written_table_is_rectangular_witness :
  exists out,
    FilterAndUpdateRewards.write_results (rt := CPython.runtime) "out.csv"
      [ candidate "2" "3" "5" ] (number "2") (number "3") (number "5")
    = Ok out
    /\ length (FilterAndUpdateRewards.written out) = 4%nat.
Proof.
  eexists. split; [reflexivity|].
  eapply (proj2 (@written_table_is_rectangular CPython.runtime "out.csv"
                   (candidate "2" "3" "5") [] (number "2") (number "3")
                   (number "5") _ eq_refl)).
Defined.

Section RunAgain.
Context {rt : PyRuntime}.
Import FilterAndUpdateRewards.

(** A surviving record survives again, unchanged. *)
Lemma survivors_fixed (uq : gset string) (ms : gmap string jobject)
    (rewards filtered : list dict) (r : dict) :
  (forall a stats json,
     ms !! a = Some stats -> json_total stats = Ok json ->
     float_str (str_of_float json) = Ok json) ->
  filtered_rows uq ms rewards = Ok filtered ->
  r ∈ filtered ->
  survivors uq ms r = Ok [r].
Proof.
  intros Hback Hf Hr.
  destruct (filtered_rows_inv _ _ _ _ _ Hf Hr)
    as (row & w & l & b & x & _ & Hstep & Hx & Hge).
  assert (is_nan x = false) as Hxn by (by destruct x).
  assert (step uq ms r = Ok (Some (r, w, l, x))) as Hr'.
  { apply step_Some_iff in Hstep
      as (a & Ha & Hvalid & Hnew & Hw & Hl & Hcases).
    apply step_Some_iff. exists a.
    destruct Hcases as [(Hms & Hb & ->)
      | (stats & csv & json & Hms & Hcsv & Hjson
         & [(Hjc & -> & ->) | (Hjc & -> & ->)])].
    - repeat split; try done. left. by rewrite Hx in Hb |- *.
    - repeat split; try done. right. exists stats, csv, json.
      rewrite Hx in Hcsv. injection Hcsv as ->. auto 10.
    - assert (float_field BASE (dict_set BASE (str_of_float json) row)
              = Ok json) as Hb.
      { unfold float_field, dict_get. rewrite dict_lookup_set.
        case_decide; [|done]. cbn [bind]. by eapply Hback. }
      rewrite Hb in Hx. injection Hx as ->.
      split; [by rewrite dict_get_set_other|]. split; [done|].
      split; [done|].
      split; [by rewrite <- Hw; apply float_field_ext, dict_lookup_set|].
      split; [by rewrite <- Hl; apply float_field_ext, dict_lookup_set|].
      right. exists stats, x, x. split; [done|]. split; [done|].
      split; [done|]. left. split; [by apply fge_refl|done]. }
  unfold survivors. rewrite Hr'. cbn. rewrite Hx. cbn. by rewrite Hge.
Qed.

Lemma dict_get_blank_row (k : string) (fieldnames : list string) :
  k ∈ fieldnames -> dict_get k (blank_row fieldnames) = Ok EmptyString.
Proof.
  intros Hk. unfold dict_get, blank_row.
  induction fieldnames as [|f fieldnames IH]; [by apply elem_of_nil in Hk|].
  cbn. case_decide; [done|]. apply IH.
  apply elem_of_cons in Hk as [-> | Hk]; done.
Qed.

(** X10. The run is idempotent on its own output: applied to the records
    it has written, that is the surviving records followed by the blank row
    and the row of totals, it keeps the surviving records as they are and
    skips the two synthetic rows, whose address fields are no addresses.
    This holds when the text written for a remote total reads back as that
    total. *)
Theorem run_again_keeps_output (uq : gset string) (ms : gmap string jobject)
    (rewards filtered : list dict) (fieldnames : list string)
    (w l b : float) :
  (forall a stats json,
     ms !! a = Some stats -> json_total stats = Ok json ->
     float_str (str_of_float json) = Ok json) ->
  ADDRESS ∈ fieldnames ->
  filtered_rows uq ms rewards = Ok filtered ->
  filtered_rows uq ms (filtered ++ [ blank_row fieldnames; total_row w l b ])
  = Ok filtered.
Proof.
  intros Hback Haddr Hf. apply filtered_rows_survivors.
  destruct (map_result_singletons (survivors uq ms) filtered)
    as (rss & Hrss & Hc).
  { intros r Hr. by eapply survivors_fixed. }
  exists (rss ++ [ []; [] ]). rewrite map_result_app, Hrss. cbn [bind].
  split; [|by rewrite concat_app, Hc; cbn; rewrite app_nil_r].
  cbn [map_result]. unfold survivors.
  assert (step uq ms (blank_row fieldnames) = Ok None) as ->.
  { apply (step_None _ _ _ EmptyString); [|by left].
    by apply dict_get_blank_row. }
  assert (step uq ms (total_row w l b) = Ok None) as ->.
  { by apply (step_None _ _ _ "TOTAL"); [|left]. }
  done.
Qed.

End RunAgain.

Lemma run_again_keeps_output_witness :
  FilterAndUpdateRewards.filtered_rows (rt := CPython.runtime) ∅
    {[ sample_address := remote_record "totalTokens" (JInt 80) ]}
    ([ candidate "2" "3" "80.0" ]
     ++ [ blank_row (dict_keys (candidate "2" "3" "80.0"));
          total_row (rt := CPython.runtime)
            (number "2") (number "3") (number "80") ])
  = Ok [ candidate "2" "3" "80.0" ].
Proof.
  apply (@run_again_keeps_output CPython.runtime ∅
           {[ sample_address := remote_record "totalTokens" (JInt 80) ]}
           [ candidate "2" "3" "100" ]).
  - intros a stats json Hms Hjson.
    apply lookup_singleton_Some in Hms as [_ <-].
    injection Hjson as <-. reflexivity.
  - by left.
  - reflexivity.
Defined.

(** ** The early filter, further *)

Section EarlyFilterProperties.
Import FilterCsv.

Lemma index_of_elem (label : string) (labels : list string) :
  label ∈ labels <-> is_Some (index_of label labels).
Proof.
  induction labels as [|l labels IH]; cbn.
  - rewrite elem_of_nil. split; [done|by intros [? [=]]].
  - rewrite elem_of_cons. case_decide; subst; [naive_solver|].
    rewrite IH. destruct (index_of label labels); naive_solver.
Qed.

(** The cell of a row in the column of a label. *)
Lemma select_Ok (labels : list string) (df : DataFrame) (row cells : list cell) :
  select labels df row = Ok cells ->
  Forall2 (fun label c =>
             exists i, index_of label (columns df) = Some i
                       /\ c = nth i row missing) labels cells.
Proof.
  unfold select. intros Hs. apply map_result_Ok_lookup in Hs.
  eapply Forall2_impl; [exact Hs|]. cbn. intros label c Hc.
  destruct (index_of label (columns df)) as [i|]; [|done].
  injection Hc as <-. eauto.
Qed.

Lemma select_total (labels : list string) (df : DataFrame) (row : list cell) :
  (forall label, label ∈ labels -> label ∈ columns df) ->
  exists cells, select labels df row = Ok cells.
Proof.
  intros Hsub. apply map_result_total. intros label Hl.
  apply Hsub, index_of_elem in Hl as [i ->]. eauto.
Qed.

Lemma select_columns (labels : list string) (df df' : DataFrame)
    (row : list cell) :
  columns df' = columns df -> select labels df' row = select labels df row.
Proof. intros Hc. unfold select. by rewrite Hc. Qed.

Lemma kept_columns (df df' : DataFrame) (row : list cell) :
  columns df' = columns df -> kept df' row = kept df row.
Proof.
  intros Hc. unfold kept. by rewrite Hc, !(select_columns _ df' df).
Qed.

(** The condition on all the token columns follows from the one on the two
    S1 totals, which are token columns themselves. *)
Lemma kept_s1 (df : DataFrame) (row s1 : list cell) :
  select s1_columns df row = Ok s1 ->
  kept df row = existsb cell_truthy s1.
Proof.
  intros Hs1. unfold kept. rewrite Hs1.
  destruct (select_total
              (List.filter (fun col => negb (bool_decide (col ∈ NOT_TOKENS)))
                 (columns df)) df row) as [tokens Htokens].
  { intros label Hl. apply list_elem_of_In, filter_In in Hl as [Hl _].
    by apply list_elem_of_In. }
  rewrite Htokens. destruct (existsb cell_truthy s1) eqn:Hany;
    [|by rewrite andb_false_r].
  rewrite andb_true_r. apply existsb_exists in Hany as (c & Hc & Htruthy).
  apply existsb_exists. exists c. split; [|done].
  apply list_elem_of_In, list_elem_of_lookup in Hc as [n Hn].
  destruct (Forall2_lookup_r _ _ _ _ _ (select_Ok _ _ _ _ Hs1) Hn)
    as (label & Hlabel & i & Hi & ->).
  assert (label ∈ List.filter
            (fun col => negb (bool_decide (col ∈ NOT_TOKENS))) (columns df))
    as Htoken.
  { apply list_elem_of_In, filter_In. split.
    - apply list_elem_of_In, index_of_elem. by rewrite Hi.
    - apply list_elem_of_lookup_2 in Hlabel. unfold s1_columns in Hlabel.
      apply elem_of_cons in Hlabel as [-> | Hlabel]; [done|].
      by apply list_elem_of_singleton in Hlabel as ->. }
  apply list_elem_of_lookup in Htoken as [m Hm].
  destruct (Forall2_lookup_l _ _ _ _ _ (select_Ok _ _ _ _ Htokens) Hm)
    as (c & Hc & j & Hj & ->).
  rewrite Hi in Hj. injection Hj as <-.
  apply list_elem_of_In. by eapply list_elem_of_lookup_2.
Qed.

(** X11. [filter_airdrop_data] keeps a row exactly when one of its two S1
    totals is non-zero and not missing: the first condition, on all the
    token columns, is implied by the second, the two S1 totals being token
    columns themselves. *)
Theorem filter_airdrop_data_s1_criterion (df df' : DataFrame) (i j : nat) :
  filter_airdrop_data df = Ok df' ->
  index_of "S1 Total Base Tokens" (columns df) = Some i ->
  index_of "S1 Total Bonus Tokens" (columns df) = Some j ->
  data df' =
  List.filter
    (fun row => cell_truthy (nth i row missing)
                || cell_truthy (nth j row missing))
    (data df).
Proof.
  intros Hf Hi Hj. destruct (filter_airdrop_data_kept _ _ Hf) as [_ ->].
  apply filter_ext_in. intros row _.
  rewrite (kept_s1 df row [ nth i row missing; nth j row missing ]).
  - cbn. by rewrite orb_false_r.
  - unfold select, s1_columns. cbn. by rewrite Hi, Hj.
Qed.

Lemma filter_airdrop_data_total (df : DataFrame) :
  (forall label, label ∈ s1_columns -> label ∈ columns df) ->
  filter_airdrop_data df =
  Ok {| columns := columns df; data := List.filter (kept df) (data df) |}.
Proof.
  intros Hs1. unfold filter_airdrop_data, any_axis1.
  destruct (map_result_total
    (fun row =>
       let! cells :=
         select (List.filter
                   (fun col => negb (bool_decide (col ∈ NOT_TOKENS)))
                   (columns df)) df row in
       Ok (existsb cell_truthy cells)) (data df)) as [c1 Hc1].
  { intros row _. destruct (select_total
      (List.filter (fun col => negb (bool_decide (col ∈ NOT_TOKENS)))
         (columns df)) df row) as [cells ->]; [|by eexists].
    intros label Hl. apply list_elem_of_In, filter_In in Hl as [Hl _].
    by apply list_elem_of_In. }
  destruct (map_result_total
    (fun row => let! cells := select s1_columns df row in
                Ok (existsb cell_truthy cells)) (data df)) as [c2 Hc2].
  { intros row _. destruct (select_total s1_columns df row Hs1) as [cells ->].
    by eexists. }
  rewrite Hc1, Hc2. cbn [bind]. do 2 f_equal.
  apply map_result_Ok_lookup in Hc1, Hc2.
  by rewrite (mask_rows_filter df _ _ _ _ _ Hc1 Hc2).
Qed.

Lemma filter_idem {A} (f : A -> bool) (xs : list A) :
  List.filter f (List.filter f xs) = List.filter f xs.
Proof.
  induction xs as [|x xs IH]; cbn; [done|].
  destruct (f x) eqn:Hx; cbn; rewrite ?Hx, IH; done.
Qed.

Lemma filter_sublist {A} (f : A -> bool) (xs : list A) :
  List.filter f xs `sublist_of` xs.
Proof.
  induction xs as [|x xs IH]; cbn; [done|].
  destruct (f x); [by apply sublist_skip|by apply sublist_cons].
Qed.

(** X12. [filter_airdrop_data] only removes rows: the table it returns has
    the columns of the one it was given and a sub-sequence of its rows, no
    cell changed and no row moved. When the two S1 columns are present the
    filter is idempotent: applied to its own result it returns it as it
    is. *)
Theorem filter_airdrop_data_idempotent (df df' : DataFrame) :
  filter_airdrop_data df = Ok df' ->
  columns df' = columns df
  /\ data df' `sublist_of` data df
  /\ ((forall label, label ∈ s1_columns -> label ∈ columns df) ->
      filter_airdrop_data df' = Ok df').
Proof.
  intros Hf. destruct (filter_airdrop_data_kept _ _ Hf) as [Hc Hd].
  split; [done|]. split; [rewrite Hd; apply filter_sublist|].
  intros Hs1. rewrite filter_airdrop_data_total by (by rewrite Hc).
  f_equal. destruct df' as [cols rows]. cbn in *. subst. f_equal.
  transitivity (List.filter (kept df) (List.filter (kept df) (data df)));
    [|apply filter_idem].
  apply filter_ext. intros row. by apply kept_columns.
Qed.

End EarlyFilterProperties.

Lemma filter_airdrop_data_s1_criterion_witness :
  data (season_table [ (sample_address, 10, 0, "5") ])%Z =
  List.filter
    (fun row => FilterCsv.cell_truthy (nth 1 row missing)
                || FilterCsv.cell_truthy (nth 2 row missing))
    (data (season_table [ (sample_address, 10, 0, "5");
                          (other_address, 0, 0, "7") ])%Z).
Proof.
  apply (filter_airdrop_data_s1_criterion
           (season_table [ (sample_address, 10, 0, "5");
                           (other_address, 0, 0, "7") ])%Z
           (season_table [ (sample_address, 10, 0, "5") ])%Z);
    reflexivity.
Defined.

Lemma filter_airdrop_data_idempotent_witness :
  FilterCsv.filter_airdrop_data
    (season_table [ (sample_address, 10, 0, "5") ])%Z
  = Ok (season_table [ (sample_address, 10, 0, "5") ])%Z.
Proof.
  apply (filter_airdrop_data_idempotent
           (season_table [ (sample_address, 10, 0, "5");
                           (other_address, 0, 0, "7") ])%Z
           (season_table [ (sample_address, 10, 0, "5") ])%Z);
    [reflexivity|].
  intros label Hlabel. unfold FilterCsv.s1_columns in Hlabel.
  apply elem_of_cons in Hlabel as [-> | Hlabel]; [by right; left|].
  apply list_elem_of_singleton in Hlabel as ->. by right; right; left.
Defined.

(** ** The exclusion set, further *)

Section ExclusionSetProperties.
Import CollectUniqueAddresses.

Lemma elem_of_add_rewards_file (x : string) (unique_addresses : gset string)
    (rewards : rewards_file) :
  x ∈ add_rewards_file unique_addresses rewards <->
  x ∈ unique_addresses
  \/ exists df i s, rewards = Loaded df
                    /\ index_of "Address" (columns df) = Some i
                    /\ CStr s ∈ column_at i df /\ x = lower s.
Proof.
  unfold add_rewards_file. destruct rewards as [| |df].
  - split; [by left|]. by intros [?|(? & ? & ? & [=] & _)].
  - split; [by left|]. by intros [?|(? & ? & ? & [=] & _)].
  - destruct (index_of "Address" (columns df)) as [i|] eqn:Hi.
    + rewrite elem_of_union, elem_of_list_to_set, elem_of_lowered. split.
      * intros [?|(s & Hs & ->)]; [by left|]. right. by exists df, i, s.
      * intros [?|(df' & i' & s & [= <-] & Hi' & Hs & ->)]; [by left|].
        right. exists s. split; [|done]. congruence.
    + split; [by left|].
      intros [?|(df' & i' & s & [= <-] & Hi' & _)]; [done|congruence].
Qed.

Lemma main_lower_case_of (files : list DataFrame) (rewards : rewards_file)
    (x : string) :
  x ∈ main files rewards -> lower x = x.
Proof.
  unfold main. rewrite elem_of_add_rewards_file, elem_of_sybil_files.
  intros [[Hx|(df & s & _ & _ & _ & ->)]|(df & i & s & _ & _ & _ & ->)].
  - by apply elem_of_empty in Hx.
  - apply lower_idem.
  - apply lower_idem.
Qed.

(** X13. Every address of the set [main] saves is in lower case, whatever
    the letter case in the sources: the set is in the form the loop of the
    filter looks addresses up in. *)
Theorem main_lower_case (files : list DataFrame) (rewards : rewards_file)
    (x : string) :
  x ∈ main files rewards -> lower x = x.
Proof. apply main_lower_case_of. Qed.

Lemma main_lower_case_witness : lower sample_address = sample_address.
Proof.
  apply (main_lower_case [ joined_file ] NotFound). by vm_compute.
Defined.

(** X14. The set [main] saves is the union of what each source
    contributes: for cluster files put end to end it is the union of the
    sets of the two parts, the rewards file counted once. Listing a file
    twice changes nothing, and a rewards file that is absent, unreadable or
    without an [Address] column only leaves its own addresses out. *)
Theorem main_app (files files' : list DataFrame) (rewards : rewards_file) :
  main (files ++ files') rewards = main files NotFound ∪ main files' rewards
  /\ main (files ++ files) rewards = main files rewards
  /\ main files NotFound = main files Unreadable
  /\ main files NotFound ⊆ main files rewards.
Proof.
  assert (forall f r x,
            x ∈ main f r <->
            x ∈ main f NotFound ∪ add_rewards_file ∅ r) as Hsplit.
  { intros f r x. unfold main. rewrite elem_of_union.
    rewrite !elem_of_add_rewards_file, elem_of_empty.
    split; [|naive_solver]. intros [?|?]; [left; by left|right; by right]. }
  assert (forall f f' x,
            x ∈ main (f ++ f') NotFound <->
            x ∈ main f NotFound ∪ main f' NotFound) as Hfiles.
  { intros f f' x. unfold main. cbn [add_rewards_file].
    rewrite elem_of_union, !elem_of_sybil_files.
    setoid_rewrite elem_of_app. rewrite elem_of_empty. naive_solver. }
  split; [|split; [|split]].
  - apply set_eq. intros x.
    rewrite Hsplit, !elem_of_union, Hfiles, (Hsplit files' rewards),
      !elem_of_union. tauto.
  - apply set_eq. intros x.
    rewrite Hsplit, elem_of_union, Hfiles, (Hsplit files rewards),
      !elem_of_union. tauto.
  - done.
  - intros x Hx. apply Hsplit, elem_of_union. by left.
Qed.

(** X15. The set [main] saves comes back from the file it is saved to:
    [load_unique_addresses], given one row per saved address with the
    address in the column [address], in any order and with repetitions,
    returns the same set. *)
Theorem load_unique_addresses_main (files : list DataFrame)
    (rewards : rewards_file) (saved : list string) :
  (forall x, x ∈ saved <-> x ∈ main files rewards) ->
  FilterAndUpdateRewards.load_unique_addresses (address_rows saved)
  = Ok (main files rewards).
Proof.
  intros Hsaved.
  destruct (load_unique_addresses_from (address_rows saved) ∅)
    as (s & Hs & Hmem).
  { intros row Hrow. apply list_elem_of_fmap in Hrow as (a & -> & _).
    by eexists. }
  unfold FilterAndUpdateRewards.load_unique_addresses. rewrite Hs. f_equal.
  apply set_eq. intros x. rewrite Hmem, elem_of_empty. split.
  - intros [[]|(row & v & Hrow & Hv & ->)].
    apply list_elem_of_fmap in Hrow as (a & -> & Ha).
    cbn in Hv. injection Hv as <-. apply Hsaved in Ha.
    by rewrite (main_lower_case_of files rewards a).
  - intros Hx. right. exists [ ("address", x) ], x.
    split; [apply list_elem_of_fmap; exists x; by rewrite Hsaved|].
    split; [done|]. symmetry. by apply (main_lower_case_of files rewards).
Qed.

End ExclusionSetProperties.

Lemma load_unique_addresses_main_witness :
  FilterAndUpdateRewards.load_unique_addresses
    (address_rows
       (elements
          (CollectUniqueAddresses.main [ joined_file; other_file ]
             CollectUniqueAddresses.NotFound)))
  = Ok (CollectUniqueAddresses.main [ joined_file; other_file ]
          CollectUniqueAddresses.NotFound).
Proof.
  apply load_unique_addresses_main. intros x. apply elem_of_elements.
Defined.

(** ** The order of the output *)

Section OutputOrder.
Context {rt : PyRuntime}.
Import FilterAndUpdateRewards.

Lemma survivors_address (uq : gset string) (ms : gmap string jobject)
    (row : dict) (s : list dict) :
  survivors uq ms row = Ok s ->
  s = [] \/ exists r, s = [r]
                      /\ dict_lookup ADDRESS r = dict_lookup ADDRESS row.
Proof.
  unfold survivors. intros Hs. inv_bind Hs.
  destruct x as [[[[r w] l] b]|]; cbn in Hs.
  - inv_bind Hs. injection Hs as <-.
    destruct x; [|by left]. right. exists r. split; [done|].
    apply step_Some_iff in E as (a & _ & _ & _ & _ & _ & Hcases).
    destruct Hcases as [(_ & _ & ->)
      | (stats & csv & json & _ & _ & _ & [(_ & -> & _) | (_ & -> & _)])];
      try done.
    by rewrite dict_lookup_set.
  - injection Hs as <-. by left.
Qed.

(** X16. The run keeps the order of the rewards file and never repeats a
    row: the addresses of the surviving records, read in order, are a
    sub-sequence of the addresses of the rows, so that there are at most as
    many surviving records as rows. *)
Theorem survivors_in_file_order (uq : gset string) (ms : gmap string jobject)
    (rewards filtered : list dict) :
  filtered_rows uq ms rewards = Ok filtered ->
  map (dict_lookup ADDRESS) filtered `sublist_of`
    map (dict_lookup ADDRESS) rewards
  /\ length filtered <= length rewards.
Proof.
  intros Hf.
  assert (map (dict_lookup ADDRESS) filtered `sublist_of`
            map (dict_lookup ADDRESS) rewards) as Hsub.
  { apply filtered_rows_survivors in Hf as (rss & Hrss & ->).
    apply map_result_Ok_lookup in Hrss.
    induction Hrss as [|row s rows rss Hs _ IH]; cbn; [done|].
    rewrite map_app.
    destruct (survivors_address _ _ _ _ Hs) as [-> | (r & -> & Hr)]; cbn.
    - by apply sublist_cons.
    - rewrite Hr. by apply sublist_skip. }
  split; [done|]. apply sublist_length in Hsub.
  by rewrite !length_map in Hsub.
Qed.

End OutputOrder.

Lemma survivors_in_file_order_witness :
  map (dict_lookup FilterAndUpdateRewards.ADDRESS)
    [ candidate_of other_address "1" "1" "7"; candidate "2" "3" "5" ]
  `sublist_of`
  map (dict_lookup FilterAndUpdateRewards.ADDRESS)
    [ candidate_of other_address "1" "1" "7"; candidate "2" "3" "0.5";
      candidate "2" "3" "5" ].
Proof.
  apply (@survivors_in_file_order CPython.runtime ∅ ∅
           [ candidate_of other_address "1" "1" "7"; candidate "2" "3" "0.5";
             candidate "2" "3" "5" ]
           [ candidate_of other_address "1" "1" "7"; candidate "2" "3" "5" ]).
  reflexivity.
Defined.
